(** * UFL: differentiation operators, terminal replacement and form arguments

    A shallow embedding of [ufl/differentiation.py], [ufl/algorithms/replace.py],
    [ufl/argument.py] and [ufl/coefficient.py], with the properties of their
    smart constructors.

    Python exceptions are values of [result]; the two-phase object
    construction [cls(args)] ([__new__], then [__init__] when [__new__]
    returned an instance of [cls]) is [type_call]. *)

From stdpp Require Import base decidable option list gmap strings.
From stdpp Require Import pretty.
From Stdlib Require Import ZArith Lia.

Open Scope string_scope.
Open Scope list_scope.
Open Scope nat_scope.

(** ** Exceptions *)

Inductive Exception : Type :=
  | UFLException (message : string)  (* raised by [ufl_assert] and [error] *)
  | KeyError                         (* a failed dictionary subscript *)
  | NameError (name : string).       (* a global name that is not bound *)

Inductive result (A : Type) : Type :=
  | Ok (a : A)
  | Raise (e : Exception).
Arguments Ok {A} a.
Arguments Raise {A} e.

#[global] Instance result_ret : MRet result := fun A a => Ok a.
#[global] Instance result_bind : MBind result := fun A B f m =>
  match m with
  | Ok a => f a
  | Raise e => Raise e
  end.

Definition is_Ok {A} (r : result A) : bool :=
  match r with Ok _ => true | Raise _ => false end.

(** [ufl_assert(condition, message)] *)
Definition ufl_assert (condition : bool) (message : string) : result unit :=
  if condition then Ok tt else Raise (UFLException message).

(** [d[k]] on a dictionary *)
Definition subscript `{Countable K} {V} (d : gmap K V) (k : K) : result V :=
  match d !! k with
  | Some v => Ok v
  | None => Raise KeyError
  end.

(** ** Index algebra ([ufl/indexing.py]) *)

Module Indexing.

(** An [Index] is an opaque token, named by its count. *)
Record Index : Type := MkIndex { _count : nat }.

#[global] Instance Index_eq_dec : EqDecision Index.
Proof. solve_decision. Defined.

#[global] Instance Index_countable : Countable Index :=
  inj_countable' _count MkIndex (fun i => match i with MkIndex _ => eq_refl end).

(** An entry of a [MultiIndex]: an [Index] or a fixed integer. *)
Inductive IndexBase : Type :=
  | Idx (i : Index)
  | FixedIndex (value : nat).

(** [[i for i in indices if isinstance(i, Index)]] *)
Definition Index_entries (indices : list IndexBase) : list Index :=
  omap (fun e => match e with Idx i => Some i | FixedIndex _ => None end) indices.

(** How many times [i] occurs in a list of indices. *)
Definition multiplicity (i : Index) (l : list Index) : nat :=
  length (filter (fun j => j = i) l).

(** Every index of the list occurs exactly twice in it. *)
Definition self_paired (l : list Index) : Prop :=
  Forall (fun i => multiplicity i l = 2) l.

(** Index tokens paired with their dimensions, fixed integers dropped. *)
Fixpoint tokens (indices : list IndexBase) (dimensions : list nat)
  : list (Index * nat) :=
  match indices, dimensions with
  | Idx i :: indices', d :: dimensions' => (i, d) :: tokens indices' dimensions'
  | FixedIndex _ :: indices', _ :: dimensions' => tokens indices' dimensions'
  | _, _ => []
  end.

(** The dimensions recorded for [i], one per occurrence. *)
Definition occurrences (i : Index) (toks : list (Index * nat)) : list nat :=
  snd <$> filter (fun t => t.1 = i) toks.

(** The distinct indices of a list, in order of first occurrence. *)
Fixpoint first_occurrences (l : list Index) : list Index :=
  match l with
  | [] => []
  | i :: l' => i :: filter (fun j => j ≠ i) (first_occurrences l')
  end.

(** An index is well used when it occurs once, or twice with the same
    dimension. *)
Definition well_used (toks : list (Index * nat)) (i : Index) : bool :=
  match occurrences i toks with
  | [_] => true
  | [d1; d2] => bool_decide (d1 = d2)
  | _ => false
  end.

(** Modelled from the spec: [extract_indices] of [ufl/indexing.py], which is
    not among the sources.  Section 4.1: fixed integers are ignored; indices
    occurring exactly once are free, exactly twice repeated; the two
    dimensions of a repeated index must agree, and an index occurring
    more than twice is an error; [additional_shape] lists the dimensions of
    the free indices and [index_dimensions] maps every free or repeated index
    to its dimension; the order is that of first occurrence.  Called without
    dimensions (as on the raw [dx] indices) only the partition is computed. *)
Definition extract_indices (indices : list IndexBase) (dimensions : option (list nat))
  : result (list Index * list Index * list nat * gmap Index nat) :=
  let dims := default (replicate (length indices) 0) dimensions in
  _ ← ufl_assert (bool_decide (length dims = length indices))
        "Expecting as many dimensions as indices.";
  let toks := tokens indices dims in
  let unique := first_occurrences (fst <$> toks) in
  _ ← ufl_assert (forallb (well_used toks) unique)
        "Index occurs more than twice, or with two different dimensions.";
  let free := filter (fun i => length (occurrences i toks) = 1) unique in
  let repeated := filter (fun i => length (occurrences i toks) = 2) unique in
  match dimensions with
  | None => Ok (free, repeated, [], ∅)
  | Some _ =>
      Ok (free, repeated,
          omap (fun i => head (occurrences i toks)) free,
          list_to_map toks)
  end.

End Indexing.


(** ** The expression interface ([ufl/base.py]) *)

Abbreviation Shape := (list nat).
Abbreviation Domain := string.

(** The class of an operand, as far as the [isinstance] tests of the
    differentiation module tell classes apart.  [ScalarValueClass] stands for
    the scalar literals, [CoefficientClass] for an ordinary coefficient (the
    class [Function] of the import list), [OperatorClass] for any other
    non-terminal class; an [Indexed] object records the class of the
    expression it indexes. *)
Inductive ExprClass : Type :=
  | ScalarValueClass | ZeroClass | IdentityClass
  | ConstantClass | VectorConstantClass | TensorConstantClass
  | CoefficientClass | BasisFunctionClass | FacetNormalClass
  | VariableClass
  | IndexedClass (_expression : ExprClass)
  | OperatorClass.

Definition isinstance_Terminal (c : ExprClass) : bool :=
  match c with
  | ScalarValueClass | ZeroClass | IdentityClass
  | ConstantClass | VectorConstantClass | TensorConstantClass
  | CoefficientClass | BasisFunctionClass | FacetNormalClass => true
  | VariableClass | IndexedClass _ | OperatorClass => false
  end.

Definition isinstance_Variable (c : ExprClass) : bool :=
  match c with VariableClass => true | _ => false end.

(** What an [Expr] answers to the queries of the constructors. *)
Record Expr : Type := {
  cls : ExprClass;
  shape : Shape;
  free_indices : list Indexing.Index;
  index_dimensions : gmap Indexing.Index nat;
  domain : option Domain
}.

(** [Expr.rank] *)
Definition rank (f : Expr) : nat := length (shape f).

(** ** Finite elements, coefficients and arguments *)

Module FiniteElement.

(** Modelled from the spec: the element metadata of [ufl/finiteelement.py],
    not among the sources; section 6 has an element expose its value shape
    and its cell, and elements are compared by what they were built from. *)
Record FiniteElementBase : Type := {
  family : string;
  cell : Domain;
  degree : nat;
  value_shape : Shape;
  _symmetry : bool
}.

#[global] Instance FiniteElementBase_eq_dec : EqDecision FiniteElementBase.
Proof. solve_decision. Defined.

(** Modelled from the spec: a scalar-valued element. *)
Definition FiniteElement (family : string) (cell : Domain) (degree : nat)
  : FiniteElementBase :=
  {| family := family; cell := cell; degree := degree; value_shape := [];
     _symmetry := false |}.

(** Modelled from the spec: a vector-valued element of [dim] components. *)
Definition VectorElement (family : string) (cell : Domain) (degree dim : nat)
  : FiniteElementBase :=
  {| family := family; cell := cell; degree := degree; value_shape := [dim];
     _symmetry := false |}.

(** Modelled from the spec: a tensor-valued element of the given shape. *)
Definition TensorElement (family : string) (cell : Domain) (degree : nat)
    (shape : Shape) (symmetry : bool) : FiniteElementBase :=
  {| family := family; cell := cell; degree := degree; value_shape := shape;
     _symmetry := symmetry |}.

End FiniteElement.

Module Common.

(** The class attributes [Argument._globalcount] and
    [Coefficient._globalcount]. *)
Record Globals : Type := {
  Argument_globalcount : Z;
  Coefficient_globalcount : Z
}.

(** Modelled from the spec: [Counted.__init__] of [ufl/common.py], not among
    the sources; section 9 describes a process-wide monotonic counter per
    counted class.  Without a count the object takes the counter's value and
    the counter advances; a given count is kept as it is and the counter
    never moves back.  Returns the object's count and the new counter. *)
Definition Counted__init__ (count : option Z) (globalcount : Z) : Z * Z :=
  match count with
  | None => (globalcount, (globalcount + 1)%Z)
  | Some c => (c, Z.max globalcount (c + 1))
  end.

End Common.

Module Coefficient.
Import FiniteElement Common.

(** The classes of [ufl/coefficient.py]. *)
Inductive Class : Type :=
  | CoefficientCls | ConstantCls | VectorConstantCls | TensorConstantCls.

Record CoefficientObject : Type := {
  class : Class;
  _element : FiniteElementBase;
  _count : Z
}.

(** [Coefficient.__init__], through [Counted.__init__]. *)
Definition Coefficient__init__ (class : Class)
    (element : FiniteElementBase) (count : option Z) (g : Globals)
  : CoefficientObject * Globals :=
  let '(c, n) := Counted__init__ count (Coefficient_globalcount g) in
  ({| class := class; _element := element; _count := c |},
   {| Argument_globalcount := Argument_globalcount g;
      Coefficient_globalcount := n |}).

Definition Coefficient (element : FiniteElementBase) (count : option Z) :=
  Coefficient__init__ CoefficientCls element count.

Definition Constant (cell : Domain) (count : option Z) :=
  let e := FiniteElement "DG" cell 0 in
  Coefficient__init__ ConstantCls e count.

Definition VectorConstant (cell : Domain) (dim : nat) (count : option Z) :=
  let e := VectorElement "DG" cell 0 dim in
  Coefficient__init__ VectorConstantCls e count.

Definition TensorConstant (cell : Domain) (shape : Shape) (symmetry : bool)
    (count : option Z) :=
  let e := TensorElement "DG" cell 0 shape symmetry in
  Coefficient__init__ TensorConstantCls e count.

Definition element (w : CoefficientObject) : FiniteElementBase := _element w.
Definition shape (w : CoefficientObject) : Shape := value_shape (_element w).
Definition cell (w : CoefficientObject) : Domain := FiniteElement.cell (_element w).

Definition ExprClass_of (c : Class) : ExprClass :=
  match c with
  | CoefficientCls => CoefficientClass
  | ConstantCls => ConstantClass
  | VectorConstantCls => VectorConstantClass
  | TensorConstantCls => TensorConstantClass
  end.

(** A coefficient as an operand: a terminal without free indices whose
    domain is the cell of its element. *)
Definition as_Expr (w : CoefficientObject) : Expr :=
  Build_Expr (ExprClass_of (class w))  (* cls *)
             (shape w)                 (* shape *)
             []                        (* free_indices *)
             ∅                         (* index_dimensions *)
             (Some (cell w)).          (* domain *)

End Coefficient.

Module Argument.
Import FiniteElement Common.

Record ArgumentObject : Type := {
  _element : FiniteElementBase;
  _count : Z
}.

(** [Argument.__init__]; [_repr] is a string cache of the two other slots. *)
Definition Argument__init__ (element : FiniteElementBase) (count : option Z)
    (g : Globals) : ArgumentObject * Globals :=
  let '(c, n) := Counted__init__ count (Argument_globalcount g) in
  ({| _element := element; _count := c |},
   {| Argument_globalcount := n;
      Coefficient_globalcount := Coefficient_globalcount g |}).

(** The objects an argument can be compared with. *)
Inductive PyObject : Type :=
  | AnArgument (v : ArgumentObject)
  | ACoefficient (w : Coefficient.CoefficientObject)
  | Another.

(** [Argument.__eq__] *)
Definition Argument__eq__ (self : ArgumentObject) (other : PyObject) : bool :=
  match other with
  | AnArgument other =>
      bool_decide (_element self = _element other)
      && bool_decide (_count self = _count other)
  | _ => false
  end.

Definition Argument (element : FiniteElementBase) (count : option Z) :=
  Argument__init__ element count.

Definition TestFunction (element : FiniteElementBase) :=
  Argument element (Some (-2)%Z).

Definition TrialFunction (element : FiniteElementBase) :=
  Argument element (Some (-1)%Z).

End Argument.

(** ** Differential operators ([ufl/differentiation.py]) *)

Module Differentiation.
Import Indexing.

(** The objects the constructors of this module return: the slots of each
    class, and the [Zero] of a short-circuit. *)
Inductive Object : Type :=
  | ZeroObject (shape : Shape)
  | SpatialDerivativeObject (_expression : Expr) (_indices : list IndexBase)
      (_shape : Shape) (_free_indices : list Index)
      (_index_dimensions : gmap Index nat)
      (_repeated_indices _dx_free_indices _dx_repeated_indices : list Index)
  | VariableDerivativeObject (_f _v : Expr) (_free_indices : list Index)
      (_index_dimensions : gmap Index nat) (_shape : Shape)
  | GradObject (_f : Expr) (_dim : nat)
  | DivObject (_f : Expr)
  | CurlObject (_f : Expr) (_dim : nat)
  | RotObject (_f : Expr).

(** What [__new__] hands back: some other object, or a fresh instance of
    the class ([Expr.__new__(cls)]), which [__init__] then fills. *)
Inductive Allocation : Type :=
  | Returned (o : Object)
  | Instance.

(** [cls(args)]: [__init__] runs only on an instance of [cls]. *)
Definition type_call (new : result Allocation) (init : result Object)
  : result Object :=
  a ← new;
  match a with
  | Returned o => Ok o
  | Instance => init
  end.

(** The [shape()] method of each class. *)
Definition Object_shape (o : Object) : Shape :=
  match o with
  | ZeroObject s => s
  | SpatialDerivativeObject _ _ s _ _ _ _ _ => s
  | VariableDerivativeObject _ _ _ _ s => s
  | GradObject f dim => dim :: shape f
  | DivObject f => drop 1 (shape f)
  | CurlObject _ dim => [dim]
  | RotObject _ => []
  end.

(** The [free_indices()] method of each class. *)
Definition Object_free_indices (o : Object) : list Index :=
  match o with
  | ZeroObject _ => []
  | SpatialDerivativeObject _ _ _ fi _ _ _ _ => fi
  | VariableDerivativeObject _ _ fi _ _ => fi
  | GradObject f _ | DivObject f | CurlObject f _ | RotObject f => free_indices f
  end.

(** The [index_dimensions()] method of each class. *)
Definition Object_index_dimensions (o : Object) : gmap Index nat :=
  match o with
  | ZeroObject _ => ∅
  | SpatialDerivativeObject _ _ _ _ d _ _ _ => d
  | VariableDerivativeObject _ _ _ d _ => d
  | GradObject f _ | DivObject f | CurlObject f _ | RotObject f =>
      index_dimensions f
  end.

Definition is_Zero (o : Object) : bool :=
  match o with ZeroObject _ => true | _ => false end.

Definition spatially_constant_types (c : ExprClass) : bool :=
  match c with
  | ScalarValueClass | ZeroClass | IdentityClass
  | ConstantClass | VectorConstantClass | TensorConstantClass => true
  | _ => false
  end.

(** [set(a) ^ set(b)] *)
Definition symmetric_difference (a b : list Index) : gset Index :=
  (list_to_set a ∖ list_to_set b) ∪ (list_to_set b ∖ list_to_set a).

(** [domain = f.domain(); ufl_assert(domain is not None, message)] *)
Definition known_domain (f : Expr) (message : string) : result Domain :=
  match domain f with
  | Some d => Ok d
  | None => Raise (UFLException message)
  end.

Section Operators.

(** The table [domain2dim] of [ufl/common.py], from a domain to its spatial
    dimension. *)
Variable domain2dim : gmap Domain nat.

(** *** SpatialDerivative *)

Definition SpatialDerivative__new__ (expression : Expr) (indices : list IndexBase)
  : result Allocation :=
  if isinstance_Terminal (cls expression) then
    let ind := Index_entries indices in
    let si : gset Index := list_to_set ind in
    if bool_decide (length ind = 2 * size si) then
      if spatially_constant_types (cls expression) then
        Ok (Returned (ZeroObject (shape expression)))
      else Ok Instance
    else Ok Instance
  else Ok Instance.

Definition SpatialDerivative__init__ (expression : Expr) (indices : list IndexBase)
  : result Object :=
  (* [indices] is wrapped in a [MultiIndex] when it is not one yet; the
     entries are the same *)
  '(dx_free_indices, dx_repeated_indices, _, _) ← extract_indices indices None;
  domain ← known_domain expression
    "Need to know the spatial dimension to compute the shape of derivatives.";
  dim ← subscript domain2dim domain;
  (* the dimensions first stored for the dx indices are replaced below *)
  let fi := free_indices expression in
  let fid := index_dimensions expression in
  let indices' := fi ++ dx_free_indices in
  fdims ← mapM (subscript fid) fi;
  let dimensions := fdims ++ replicate (length dx_free_indices) dim in
  '(free, repeated, shape, dims) ←
     extract_indices (Idx <$> indices') (Some dimensions);
  Ok (SpatialDerivativeObject expression indices shape free dims repeated
        dx_free_indices dx_repeated_indices).

Definition SpatialDerivative (expression : Expr) (indices : list IndexBase)
  : result Object :=
  type_call (SpatialDerivative__new__ expression indices)
            (SpatialDerivative__init__ expression indices).

(** *** VariableDerivative *)

Definition VariableDerivative__new__ (f v : Expr) : result Allocation :=
  if negb (isinstance_Variable (cls f)) && isinstance_Terminal (cls f) then
    let free := symmetric_difference (free_indices f) (free_indices v) in
    if bool_decide (free = ∅) then Ok (Returned (ZeroObject (shape f)))
    else Ok Instance
  else Ok Instance.

Definition VariableDerivative__init__ (f v : Expr) : result Object :=
  (* every operand of this model is an [Expr] *)
  _ ← ufl_assert true "Expecting an Expr in VariableDerivative.";
  _ ← match cls v with
      | IndexedClass e =>
          _ ← ufl_assert (isinstance_Variable e)
                "Expecting a Variable in VariableDerivative.";
          (* the module never imports [ufl_warning] *)
          Raise (NameError "ufl_warning")
      | c => ufl_assert (isinstance_Variable c)
               "Expecting a Variable in VariableDerivative."
      end;
  let fi := free_indices f in
  let vi := free_indices v in
  let fid := index_dimensions f in
  let vid := index_dimensions v in
  _ ← ufl_assert (bool_decide (symmetric_difference fi vi = ∅))
        "Repeated indices not allowed in VariableDerivative.";
  Ok (VariableDerivativeObject f v (fi ++ vi) (vid ∪ fid) (shape f ++ shape v)).

Definition VariableDerivative (f v : Expr) : result Object :=
  type_call (VariableDerivative__new__ f v) (VariableDerivative__init__ f v).

(** *** Grad *)

Definition Grad__new__ (f : Expr) : result Allocation :=
  if spatially_constant_types (cls f) then
    domain ← known_domain f
      "Can't take gradient of expression with undefined domain...";
    dim ← subscript domain2dim domain;
    Ok (Returned (ZeroObject (dim :: shape f)))
  else Ok Instance.

Definition Grad__init__ (f : Expr) : result Object :=
  domain ← known_domain f
    "Can't take gradient of expression with undefined domain. How did this happen?";
  dim ← subscript domain2dim domain;
  _ ← ufl_assert (bool_decide (free_indices f = []))
        "TODO: Taking gradient of an expression with free indices, should this be a valid expression? Please provide examples!";
  Ok (GradObject f dim).

Definition Grad (f : Expr) : result Object :=
  type_call (Grad__new__ f) (Grad__init__ f).

(** *** Div *)

Definition Div__new__ (f : Expr) : result Allocation :=
  if spatially_constant_types (cls f) then
    Ok (Returned (ZeroObject (drop 1 (shape f))))
  else Ok Instance.

Definition Div__init__ (f : Expr) : result Object :=
  _ ← ufl_assert (bool_decide (1 ≤ rank f))
        "Can't take the divergence of a scalar.";
  _ ← ufl_assert (bool_decide (free_indices f = []))
        "TODO: Taking divergence of an expression with free indices, should this be a valid expression? Please provide examples!";
  Ok (DivObject f).

Definition Div (f : Expr) : result Object :=
  type_call (Div__new__ f) (Div__init__ f).

(** *** Curl *)

Definition Curl__init__ (f : Expr) : result Object :=
  _ ← ufl_assert (bool_decide (rank f = 1)) "Need a vector.";
  _ ← ufl_assert (bool_decide (free_indices f = []))
        "TODO: Taking curl of an expression with free indices, should this be a valid expression? Please provide examples!";
  domain ← known_domain f
    "Can't take curl of expression with undefined domain...";
  dim ← subscript domain2dim domain;
  Ok (CurlObject f dim).

(** [Curl] has no [__new__] of its own. *)
Definition Curl (f : Expr) : result Object :=
  type_call (Ok Instance) (Curl__init__ f).

(** *** Rot *)

Definition Rot__init__ (f : Expr) : result Object :=
  _ ← ufl_assert (bool_decide (rank f = 1)) "Need a vector.";
  _ ← ufl_assert (bool_decide (free_indices f = []))
        "TODO: Taking rot of an expression with free indices, should this be a valid expression? Please provide examples!";
  Ok (RotObject f).

(** [Rot] has no [__new__] of its own. *)
Definition Rot (f : Expr) : result Object :=
  type_call (Ok Instance) (Rot__init__ f).

End Operators.

End Differentiation.

(** ** Replacing terminals ([ufl/algorithms/replace.py]) *)

Module Replace.

(** The type of an operator node; [CoefficientDerivative] is the marker of
    a derivative that has not been expanded yet. *)
Inductive UFLType : Type :=
  | CoefficientDerivative
  | OtherOperator (name : string).

#[global] Instance UFLType_eq_dec : EqDecision UFLType.
Proof. solve_decision. Defined.

(** An expression of the traversal: a terminal, named by its [repr], or an
    operator over its operands; both carry their [ufl_shape]. *)
#[local] Unset Elimination Schemes.
Inductive Expr : Type :=
  | Terminal (repr : string) (shape : Shape)
  | Operator (ufl_type : UFLType) (operands : list Expr) (shape : Shape).
#[local] Set Elimination Schemes.

Definition _ufl_is_terminal_ (e : Expr) : bool :=
  match e with Terminal _ _ => true | Operator _ _ _ => false end.

Definition ufl_shape (e : Expr) : Shape :=
  match e with Terminal _ s => s | Operator _ _ s => s end.

Definition ufl_operands (e : Expr) : list Expr :=
  match e with Terminal _ _ => [] | Operator _ ops _ => ops end.

(** [Expr.__eq__]: structural equality. *)
Fixpoint Expr_eqb (a b : Expr) {struct a} : bool :=
  match a, b with
  | Terminal r s, Terminal r' s' => bool_decide (r = r') && bool_decide (s = s')
  | Operator t ops s, Operator t' ops' s' =>
      bool_decide (t = t') && bool_decide (s = s')
      && (fix all_eqb (l l' : list Expr) {struct l} : bool :=
            match l, l' with
            | [], [] => true
            | x :: l1, y :: l1' => Expr_eqb x y && all_eqb l1 l1'
            | _, _ => false
            end) ops ops'
  | _, _ => false
  end.

(** [operands == other_operands], element by element. *)
Fixpoint operands_eqb (l l' : list Expr) : bool :=
  match l, l' with
  | [], [] => true
  | x :: l1, y :: l1' => Expr_eqb x y && operands_eqb l1 l1'
  | _, _ => false
  end.

(** Modelled from the spec: [has_exact_type] of [ufl/algorithms/analysis.py],
    not among the sources: whether the expression contains a node of exactly
    the given type (section 4.4: "contains any not-yet-expanded symbolic
    coefficient-derivative marker"). *)
Fixpoint has_exact_type (e : Expr) (ufl_type : UFLType) : bool :=
  match e with
  | Terminal _ _ => false
  | Operator t ops _ =>
      bool_decide (t = ufl_type) || existsb (fun u => has_exact_type u ufl_type) ops
  end.

(** A dictionary with expressions as keys, in insertion order; keys are
    compared with [Expr.__eq__]. *)
Abbreviation Mapping := (list (Expr * Expr)).

(** [mapping.get(o)] *)
Fixpoint get (mapping : Mapping) (o : Expr) : option Expr :=
  match mapping with
  | [] => None
  | (k, v) :: mapping' => if Expr_eqb k o then Some v else get mapping' o
  end.

(** Whether some terminal of [e] is a key of the mapping. *)
Fixpoint mentions (mapping : Mapping) (e : Expr) : bool :=
  match e with
  | Terminal _ _ => bool_decide (is_Some (get mapping e))
  | Operator _ ops _ => existsb (mentions mapping) ops
  end.

(** A table that maps every key it holds to the key itself, and holds no
    expression with a coefficient-derivative marker. *)
Definition identity_table (vcache : Mapping) : Prop :=
  forall k v, get vcache k = Some v ->
    v = k /\ has_exact_type k CoefficientDerivative = false.

(** [as_ufl(v)]: a value that is an expression already is returned as it
    is; the values of a [Mapping] are expressions. *)
Definition as_ufl (v : Expr) : Expr := v.

(** *** Calls in the order they are made *)

(** What [replace] does with the expression it is given, step by step. *)
Inductive Event : Type :=
  | Scan (e : Expr)      (* [has_exact_type(e, ...)] walks [e] *)
  | Expand (e : Expr)    (* [expand_derivatives(e)] rewrites [e] *)
  | Validate             (* [Replacer.__init__] checks the mapping *)
  | Visit (o : Expr).    (* a handler of the [Replacer] is applied to [o] *)

(** A computation logs its events and returns or raises. *)
Definition M (A : Type) : Type := list Event * result A.

#[global] Instance M_ret : MRet M := fun A a => ([], Ok a).
#[global] Instance M_bind : MBind M := fun A B f m =>
  match m with
  | (tr, Ok a) => let '(tr', r) := f a in (tr ++ tr', r)
  | (tr, Raise e) => (tr, Raise e)
  end.

Definition tell (ev : Event) : M unit := ([ev], Ok tt).
Definition lift {A} (r : result A) : M A := ([], r).
Definition trace {A} (m : M A) : list Event := m.1.
Definition outcome {A} (m : M A) : result A := m.2.

Definition is_Visit (ev : Event) : bool :=
  match ev with Visit _ => true | _ => false end.

(** *** The Replacer *)

Record Replacer : Type := { _mapping : Mapping }.

(** [Replacer.__init__] *)
Definition Replacer__init__ (mapping : Mapping) : result Replacer :=
  _ ← ufl_assert (forallb (fun kv => _ufl_is_terminal_ kv.1) mapping)
        "This implementation can only replace Terminal objects.";
  _ ← ufl_assert (forallb (fun kv => bool_decide (ufl_shape kv.1 = ufl_shape kv.2)) mapping)
        "Replacement expressions must have the same shape as what they replace.";
  Ok {| _mapping := mapping |}.

(** A mapping that breaks a precondition of [replace]: some key is not a
    terminal, or some value has another shape than its key. *)
Definition invalid_mapping (mapping : Mapping) : Prop :=
  Exists (fun kv => _ufl_is_terminal_ kv.1 = false
                    \/ ufl_shape kv.1 <> ufl_shape kv.2) mapping.

(** [Replacer.terminal] *)
Definition terminal (self : Replacer) (o : Expr) : Expr :=
  let e := get (_mapping self) o in
  match e with
  | None => o
  | Some e => e
  end.

(** [Replacer.coefficient_derivative] *)
Definition coefficient_derivative (self : Replacer) (o : Expr) : result Expr :=
  Raise (UFLException "Derivatives should be applied before executing replace.").

Section Traversal.

(** [o._ufl_expr_reconstruct_] on new operands: the smart constructor of the class of
    [o], run again; it belongs to each operator class. *)
Variable _ufl_expr_reconstruct_ : Expr → list Expr → result Expr.

(** The derivative expansion pass [ufl.algorithms.ad.expand_derivatives]. *)
Variable expand_derivatives : Expr → result Expr.

(** Modelled from the spec: [MultiFunction.reuse_if_untouched] of
    [ufl/corealg/multifunction.py], not among the sources.  Section 4.3: when
    the transformed operands all equal the original ones the original node
    is returned, otherwise the node is reconstructed. *)
Definition reuse_if_untouched (o : Expr) (ops : list Expr) : result Expr :=
  if operands_eqb ops (ufl_operands o) then Ok o
  else _ufl_expr_reconstruct_ o ops.

(** [Replacer.expr] *)
Definition expr := reuse_if_untouched.

(** The operands of a node, transformed from left to right with the table
    handed on. *)
Fixpoint map_operands (transform : Expr → Mapping → M (Expr * Mapping))
    (operands : list Expr) (vcache : Mapping) : M (list Expr * Mapping) :=
  match operands with
  | [] => mret ([], vcache)
  | u :: operands' =>
      '(r, vcache) ← transform u vcache;
      '(rs, vcache) ← map_operands transform operands' vcache;
      mret (r :: rs, vcache)
  end.

(** Modelled from the spec: [map_expr_dag] of [ufl/corealg/map_dag.py], not
    among the sources.  Section 4.3: operands first; every distinct node is
    transformed at most once in a pass, the results being kept in a table
    keyed by structural equality; a terminal goes to the terminal rule, the
    coefficient-derivative marker stops the descent and goes to its own rule,
    every other node to the reuse-if-untouched default.  Takes and returns
    the table. *)
Fixpoint map_expr_dag (function : Replacer) (v : Expr) (vcache : Mapping) {struct v}
  : M (Expr * Mapping) :=
  match get vcache v with
  | Some r => mret (r, vcache)
  | None =>
      '(r, vcache) ←
        match v with
        | Terminal _ _ =>
            _ ← tell (Visit v);
            mret (terminal function v, vcache)
        | Operator CoefficientDerivative _ _ =>
            _ ← tell (Visit v);
            r ← lift (coefficient_derivative function v);
            mret (r, vcache)
        | Operator _ operands _ =>
            '(ops, vcache) ← map_operands (map_expr_dag function) operands vcache;
            _ ← tell (Visit v);
            r ← lift (expr v ops);
            mret (r, vcache)
        end;
      mret (r, (v, r) :: vcache)
  end.

(** What one pass does to a [v] that mentions no key of the mapping: it
    returns [v] itself, or raises when [v] holds a coefficient-derivative
    marker. *)
Definition untouched (function : Replacer) (v : Expr) : Prop :=
  forall vcache, identity_table vcache ->
    mentions (_mapping function) v = false ->
    if has_exact_type v CoefficientDerivative
    then exists tr e, map_expr_dag function v vcache = (tr, Raise e)
    else exists tr vcache',
        map_expr_dag function v vcache = (tr, Ok (v, vcache'))
        /\ identity_table vcache'.

(** Modelled from the spec: [map_integrand_dags] of
    [ufl/algorithms/map_integrands.py], not among the sources, on an
    expression: one pass of the traversal, from an empty table. *)
Definition map_integrand_dags (function : Replacer) (e : Expr) : M Expr :=
  '(r, _) ← map_expr_dag function e [];
  mret r.

(** [replace(e, mapping)] *)
Definition replace (e : Expr) (mapping : Mapping) : M Expr :=
  let mapping2 := (fun kv : Expr * Expr => (kv.1, as_ufl kv.2)) <$> mapping in
  _ ← tell (Scan e);
  e ← (if has_exact_type e CoefficientDerivative then
         _ ← tell (Expand e);
         lift (expand_derivatives e)
       else mret e);
  _ ← tell Validate;
  function ← lift (Replacer__init__ mapping2);
  map_integrand_dags function e.

End Traversal.

End Replace.

(** ** Sample data *)

Module Samples.
Import Indexing.

Definition i : Index := MkIndex 0.
Definition j : Index := MkIndex 1.

(** A table of spatial dimensions. *)
Definition domain2dim : gmap Domain nat :=
  {[ "interval" := 1; "triangle" := 2; "tetrahedron" := 3 ]}.

Definition globals : Common.Globals :=
  {| Common.Argument_globalcount := 0; Common.Coefficient_globalcount := 0 |}.

(** [Zero(())] *)
Definition zero_scalar : Expr :=
  {| cls := ZeroClass; shape := []; free_indices := [];
     index_dimensions := ∅; domain := None |}.

(** [Constant("triangle")], [VectorConstant("triangle", 3)] *)
Definition c : Expr := Coefficient.as_Expr (Coefficient.Constant "triangle" None globals).1.
Definition C : Expr :=
  Coefficient.as_Expr (Coefficient.VectorConstant "triangle" 3 None globals).1.

(** [Coefficient(VectorElement("CG", "triangle", 1, 2))] *)
Definition P1 : FiniteElement.FiniteElementBase :=
  FiniteElement.VectorElement "CG" "triangle" 1 2.
Definition w : Coefficient.CoefficientObject := (Coefficient.Coefficient P1 None globals).1.

(** [u[i]] for a vector-valued coefficient [u], and a variable wrapping such
    an expression. *)
Definition u_i : Expr :=
  {| cls := IndexedClass CoefficientClass; shape := []; free_indices := [i];
     index_dimensions := {[ i := 2 ]}; domain := Some "triangle" |}.
Definition var_i : Expr :=
  {| cls := VariableClass; shape := []; free_indices := [i];
     index_dimensions := {[ i := 2 ]}; domain := Some "triangle" |}.

(** A variable without free indices. *)
Definition var : Expr :=
  {| cls := VariableClass; shape := []; free_indices := [];
     index_dimensions := ∅; domain := Some "triangle" |}.

(** A vector of five components over a tetrahedron, and a scalar field. *)
Definition v5 : Expr :=
  {| cls := OperatorClass; shape := [5]; free_indices := [];
     index_dimensions := ∅; domain := Some "tetrahedron" |}.
Definition v3 : Expr :=
  {| cls := OperatorClass; shape := [3]; free_indices := [];
     index_dimensions := ∅; domain := Some "tetrahedron" |}.
Definition p : Expr :=
  {| cls := OperatorClass; shape := []; free_indices := [];
     index_dimensions := ∅; domain := Some "tetrahedron" |}.

End Samples.

Module ReplaceSamples.
Import Replace.

Definition u : Expr := Terminal "u" [].
Definition f : Expr := Terminal "f" [3].
Definition g : Expr := Terminal "g" [3].

(** [u*u], its unexpanded derivative with respect to [u], and a mapping
    whose key is not a terminal. *)
Definition uu : Expr := Operator (OtherOperator "Product") [u; u] [].
Definition duu : Expr := Operator CoefficientDerivative [uu; u] [].
Definition bad_key : Mapping := [(uu, u)].
Definition bad_shape : Mapping := [(u, f)].

(** Collaborators to run the samples with: a reconstruction that puts the
    new operands in place, and an expansion pass that finds nothing to do. *)
Definition rebuild (o : Expr) (ops : list Expr) : result Expr :=
  match o with
  | Terminal _ _ => Ok o
  | Operator t _ s => Ok (Operator t ops s)
  end.
Definition nothing_to_expand (e : Expr) : result Expr := Ok e.

End ReplaceSamples.

(** ** Methods of the form arguments ([ufl/argument.py], [ufl/coefficient.py]) *)

Module FormArguments.
Import FiniteElement Common.

(** [str(count)] of an integer count: its decimal digits, after a minus
    sign when it is negative. *)
Definition str (count : Z) : string := pretty count.

(** The value of a keyword argument after
    [if x is None or x == self._x: x = self._x]: [None] when it is now the
    very object held by [self], else the value that was given. *)
Definition keep_or_new {A} `{EqDecision A} (given : option A) (held : A) : option A :=
  match given with
  | None => None
  | Some x => if bool_decide (x = held) then None else Some x
  end.

(** *** Argument *)

Definition Argument_element (self : Argument.ArgumentObject) : FiniteElementBase :=
  Argument._element self.
Definition Argument_shape (self : Argument.ArgumentObject) : Shape :=
  value_shape (Argument._element self).
Definition Argument_cell (self : Argument.ArgumentObject) : Domain :=
  cell (Argument._element self).

(** [Argument.reconstruct] *)
Definition Argument_reconstruct (self : Argument.ArgumentObject)
    (count : option Z) (element : option FiniteElementBase) (g : Globals)
  : Argument.ArgumentObject * Globals :=
  let element := keep_or_new element (Argument._element self) in
  let count := keep_or_new count (Argument._count self) in
  match count, element with
  | None, None => (self, g)
  | _, _ =>
      Argument.Argument (default (Argument._element self) element)
        (Some (default (Argument._count self) count)) g
  end.

(** [Argument.__str__] *)
Definition Argument__str__ (self : Argument.ArgumentObject) : string :=
  let count := str (Argument._count self) in
  if bool_decide (String.length count = 1) then "v_" +:+ count
  else "v_{" +:+ count +:+ "}".

(** *** Coefficient and the constants *)

(** [Coefficient.__eq__]; the subclasses inherit it. *)
Definition Coefficient__eq__ (self : Coefficient.CoefficientObject)
    (other : Argument.PyObject) : bool :=
  match other with
  | Argument.ACoefficient other =>
      bool_decide (Coefficient._element self = Coefficient._element other)
      && bool_decide (Coefficient._count self = Coefficient._count other)
  | _ => false
  end.

(** What a call can raise besides an [Exception] of the library: the
    [IndexError] of a subscript on a tuple that is too short. *)
Inductive Raised : Type :=
  | Exc (e : Exception)
  | IndexError.

(** [_reconstruct] of each class. *)
Definition Coefficient__reconstruct (self : Coefficient.CoefficientObject)
    (element : FiniteElementBase) (count : Z) (g : Globals)
  : Coefficient.CoefficientObject * Globals + Raised :=
  match Coefficient.class self with
  | Coefficient.CoefficientCls =>
      inl (Coefficient.Coefficient element (Some count) g)
  | Coefficient.ConstantCls =>
      inl (Coefficient.Constant (cell element) (Some count) g)
  | Coefficient.VectorConstantCls =>
      match value_shape element with
      | dim :: _ => inl (Coefficient.VectorConstant (cell element) dim (Some count) g)
      | [] => inr IndexError
      end
  | Coefficient.TensorConstantCls =>
      inl (Coefficient.TensorConstant (cell element) (value_shape element)
             (_symmetry element) (Some count) g)
  end.

(** [Coefficient.reconstruct], shared by the constants. *)
Definition Coefficient_reconstruct (self : Coefficient.CoefficientObject)
    (count : option Z) (element : option FiniteElementBase) (g : Globals)
  : Coefficient.CoefficientObject * Globals + Raised :=
  let element := keep_or_new element (Coefficient._element self) in
  let count := keep_or_new count (Coefficient._count self) in
  match count, element with
  | None, None => inl (self, g)
  | _, _ =>
      let element := default (Coefficient._element self) element in
      let count := default (Coefficient._count self) count in
      if bool_decide (value_shape element = value_shape (Coefficient._element self))
      then Coefficient__reconstruct self element count g
      else inr (Exc (UFLException
             "Cannot reconstruct a VectorConstant with a different value shape."))
  end.

(** A label: a prefix, then the count, in braces unless it is a single
    character. *)
Definition label (prefix count : string) : string :=
  if bool_decide (String.length count = 1) then prefix +:+ count
  else prefix +:+ "{" +:+ count +:+ "}".

(** The letter each class prints before the count. *)
Definition prefix (c : Coefficient.Class) : string :=
  match c with
  | Coefficient.CoefficientCls => "w_"
  | Coefficient.ConstantCls => "c_"
  | Coefficient.VectorConstantCls => "C_"
  | Coefficient.TensorConstantCls => "C_"
  end.

(** [__str__] of [Coefficient], [Constant], [VectorConstant] and
    [TensorConstant]. *)
Definition Coefficient__str__ (self : Coefficient.CoefficientObject) : string :=
  let count := str (Coefficient._count self) in
  if bool_decide (String.length count = 1)
  then prefix (Coefficient.class self) +:+ count
  else prefix (Coefficient.class self) +:+ "{" +:+ count +:+ "}".

(** An object as its constructor leaves it: the element of a constant is
    the piecewise constant element its constructor builds. *)
Definition constructed (w : Coefficient.CoefficientObject) : Prop :=
  match Coefficient.class w with
  | Coefficient.CoefficientCls => True
  | Coefficient.ConstantCls =>
      Coefficient._element w = FiniteElement "DG" (Coefficient.cell w) 0
  | Coefficient.VectorConstantCls =>
      exists dim, Coefficient._element w = VectorElement "DG" (Coefficient.cell w) 0 dim
  | Coefficient.TensorConstantCls =>
      exists shape symmetry,
        Coefficient._element w
        = TensorElement "DG" (Coefficient.cell w) 0 shape symmetry
  end.

End FormArguments.

(** ** Substitution, as a reference for [replace] *)

Module Substitution.
Import Replace.

(** Every terminal that is a key of the mapping gives way to its value, in
    one simultaneous pass: a value put in place is not looked at again. *)
Fixpoint substitute (mapping : Mapping) (e : Expr) : Expr :=
  match e with
  | Terminal _ _ => default e (get mapping e)
  | Operator t ops s => Operator t (substitute mapping <$> ops) s
  end.

(** A table that maps every key it holds to the substituted key. *)
Definition substitution_table (mapping vcache : Mapping) : Prop :=
  forall k r, get vcache k = Some r -> r = substitute mapping k.

(** A reconstruction that puts the new operands in the place of the old
    ones and changes nothing else. *)
Definition rebuilds (reconstruct : Expr -> list Expr -> result Expr) : Prop :=
  forall t ops0 s ops, reconstruct (Operator t ops0 s) ops = Ok (Operator t ops s).

(** What one pass does to a [v] without coefficient-derivative marker when
    nodes are rebuilt in place: it returns [v] substituted. *)
Definition substituted (reconstruct : Expr -> list Expr -> result Expr)
    (function : Replacer) (v : Expr) : Prop :=
  forall vcache, substitution_table (_mapping function) vcache ->
    has_exact_type v CoefficientDerivative = false ->
    exists tr vcache',
      map_expr_dag reconstruct function v vcache
      = (tr, Ok (substitute (_mapping function) v, vcache'))
      /\ substitution_table (_mapping function) vcache'.

(** The failure of a pass that reaches a coefficient-derivative marker. *)
Definition unexpanded : Exception :=
  UFLException "Derivatives should be applied before executing replace.".

(** What one pass does to a [v] that still holds a marker and mentions no
    key of the mapping: it stops at the marker. *)
Definition stops_at_marker (reconstruct : Expr -> list Expr -> result Expr)
    (function : Replacer) (v : Expr) : Prop :=
  forall vcache, identity_table vcache ->
    mentions (_mapping function) v = false ->
    has_exact_type v CoefficientDerivative = true ->
    exists tr, map_expr_dag reconstruct function v vcache = (tr, Raise unexpanded).

(** [u*u + w] and a mapping that replaces [u] by [w] and [w] by [u]. *)
Definition w : Expr := Terminal "w" [].
Definition sum : Expr :=
  Operator (OtherOperator "Sum") [ReplaceSamples.uu; w] [].
Definition swap : Mapping := [(ReplaceSamples.u, w); (w, ReplaceSamples.u)].

End Substitution.

(** ** Outcomes of the differential operators *)

Module Outcomes.

(** Whether the domain of [f] has a spatial dimension in the table. *)
Definition resolvable (domain2dim : gmap Domain nat) (f : Expr) : Prop :=
  exists d dim, domain f = Some d /\ domain2dim !! d = Some dim.

(** [v[i]] for a variable [v], and a scalar field without domain. *)
Definition v_i : Expr :=
  {| cls := IndexedClass VariableClass; shape := [];
     free_indices := [Samples.i]; index_dimensions := {[ Samples.i := 2 ]};
     domain := Some "triangle" |}.
Definition nowhere : Expr :=
  {| cls := OperatorClass; shape := []; free_indices := [];
     index_dimensions := ∅; domain := None |}.

(** A tensor field shaped like the gradient of [Samples.v3]. *)
Definition t33 : Expr :=
  {| cls := OperatorClass; shape := [3; 3]; free_indices := [];
     index_dimensions := ∅; domain := Some "tetrahedron" |}.

End Outcomes.


(** * Properties of the index algebra *)

Section IndexCounting.
Import Indexing.

Lemma length_filter_split (i : Index) (l : list Index) :
  length l = multiplicity i l + length (filter (fun j => j ≠ i) l).
Proof.
  unfold multiplicity.
  rewrite <- length_app. apply Permutation_length. symmetry.
  apply (filter_app_complement (fun j => j = i)).
Qed.

Lemma multiplicity_filter_ne (i j : Index) (l : list Index) :
  j ≠ i -> multiplicity j (filter (fun k => k ≠ i) l) = multiplicity j l.
Proof.
  intros Hne. unfold multiplicity. rewrite list_filter_filter.
  f_equal. apply list_filter_iff. intros k. split; [tauto | intros ->; tauto].
Qed.

Lemma list_to_set_filter_ne (i : Index) (l : list Index) :
  i ∈ l ->
  (list_to_set l : gset Index) = {[ i ]} ∪ list_to_set (filter (fun j => j ≠ i) l).
Proof.
  intros Hi. apply set_eq. intros j.
  rewrite elem_of_union, elem_of_singleton, !elem_of_list_to_set, list_elem_of_filter.
  destruct (decide (j = i)) as [-> | Hne]; tauto.
Qed.

(** A list in which every index occurs exactly twice is twice as long as
    the set of its indices is large. *)
Lemma self_paired_length (l : list Index) :
  self_paired l -> length l = 2 * size (list_to_set l : gset Index).
Proof.
  unfold self_paired. rewrite Forall_forall.
  assert (Hle : length l ≤ length l) by lia.
  revert Hle. generalize (length l) at 2. intros n. revert l.
  induction n as [| n IH]; intros l Hle Hpair.
  - destruct l; [reflexivity | simpl in Hle; lia].
  - destruct l as [| i l']; [reflexivity |].
    set (l := i :: l') in *.
    assert (Hi : i ∈ l) by (subst l; left).
    pose proof (length_filter_split i l) as Hsplit.
    rewrite (Hpair i Hi) in Hsplit.
    rewrite (list_to_set_filter_ne i l Hi).
    rewrite size_union, size_singleton.
    + assert (Hrest : length (filter (fun j => j ≠ i) l)
                      = 2 * size (list_to_set (filter (fun j => j ≠ i) l) : gset Index)).
      { apply IH; [lia |].
        intros j Hj. apply list_elem_of_filter in Hj as [Hne Hj].
        rewrite multiplicity_filter_ne by exact Hne. auto. }
      lia.
    + intros j Hj1 Hj2. apply elem_of_singleton in Hj1 as ->.
      apply elem_of_list_to_set, list_elem_of_filter in Hj2 as [Hne _]. congruence.
Qed.

Lemma occurrences_nil (i : Index) : occurrences i [] = [].
Proof. reflexivity. Qed.

Lemma occurrences_cons_eq (i : Index) (d : nat) (toks : list (Index * nat)) :
  occurrences i ((i, d) :: toks) = d :: occurrences i toks.
Proof. unfold occurrences. rewrite filter_cons_True by reflexivity. reflexivity. Qed.

Lemma occurrences_cons_ne (i j : Index) (d : nat) (toks : list (Index * nat)) :
  j ≠ i -> occurrences i ((j, d) :: toks) = occurrences i toks.
Proof. intros Hne. unfold occurrences. rewrite filter_cons_False by exact Hne. reflexivity. Qed.

Lemma extract_indices_single_None (i : Index) :
  extract_indices [Idx i] None = Ok ([i], [], [], ∅).
Proof.
  unfold extract_indices, well_used. cbn -[occurrences].
  rewrite !occurrences_cons_eq, !occurrences_nil. reflexivity.
Qed.

Lemma extract_indices_single_Some (i : Index) (d : nat) :
  extract_indices [Idx i] (Some [d]) = Ok ([i], [], [d], {[ i := d ]}).
Proof.
  unfold extract_indices, well_used. cbn -[occurrences].
  rewrite !occurrences_cons_eq, !occurrences_nil. cbn -[occurrences].
  repeat case_decide; try lia.
  cbn -[occurrences]. rewrite occurrences_cons_eq. reflexivity.
Qed.

Lemma elem_of_first_occurrences (i : Index) (l : list Index) :
  i ∈ first_occurrences l <-> i ∈ l.
Proof.
  induction l as [| k l IH]; simpl; [reflexivity |].
  rewrite !elem_of_cons, list_elem_of_filter, IH.
  destruct (decide (i = k)); tauto.
Qed.

Lemma tokens_without_dimensions (indices : list IndexBase) :
  (tokens indices (replicate (length indices) 0)).*1 = Index_entries indices.
Proof.
  induction indices as [| [i | n] indices IH]; simpl; [reflexivity | |].
  - f_equal. exact IH.
  - exact IH.
Qed.

Lemma length_occurrences (i : Index) (toks : list (Index * nat)) :
  length (occurrences i toks) = multiplicity i (toks.*1).
Proof.
  unfold occurrences, multiplicity. rewrite length_fmap.
  induction toks as [| [k d] toks IH]; simpl; [reflexivity |].
  rewrite !filter_cons. simpl.
  destruct (decide (k = i)); simpl; rewrite IH; reflexivity.
Qed.

(** [extract_indices] rejects an index that occurs three times or more. *)
Lemma extract_indices_rejects_triple (indices : list IndexBase) (i : Index) :
  3 ≤ multiplicity i (Index_entries indices) ->
  extract_indices indices None
  = Raise (UFLException
             "Index occurs more than twice, or with two different dimensions.").
Proof.
  intros Hthree. unfold extract_indices. simpl default.
  rewrite bool_decide_eq_true_2 by apply length_replicate.
  simpl.
  set (toks := tokens indices (replicate (length indices) 0)).
  assert (Hbad : forallb (well_used toks) (first_occurrences (toks.*1)) = false).
  { apply not_true_is_false. intros Hall.
    rewrite forallb_forall in Hall.
    assert (Hin : i ∈ first_occurrences (toks.*1)).
    { apply elem_of_first_occurrences. subst toks.
      rewrite tokens_without_dimensions.
      unfold multiplicity in Hthree.
      destruct (filter (fun j => j = i) (Index_entries indices)) as [| k r] eqn:Hf;
        [simpl in Hthree; lia |].
      assert (Hk : k ∈ filter (fun j => j = i) (Index_entries indices))
        by (rewrite Hf; left).
      apply list_elem_of_filter in Hk as [-> Hk]. exact Hk. }
    apply list_elem_of_In in Hin. specialize (Hall i Hin).
    unfold well_used in Hall.
    pose proof (length_occurrences i toks) as Hlen.
    subst toks. rewrite tokens_without_dimensions in Hlen.
    destruct (occurrences i _) as [| ? [| ? [| ? ?]]]; simpl in Hlen;
      try discriminate; lia. }
  rewrite Hbad. reflexivity.
Qed.
End IndexCounting.

(** * Properties of the differentiation operators *)

Section DifferentiationProperties.
Import Indexing Differentiation.

Variable domain2dim : gmap Domain nat.

(** Case analysis on the condition of a [ufl_assert]. *)
Ltac case_assert P :=
  destruct (decide P);
  [ rewrite (bool_decide_eq_true_2 P) by assumption
  | rewrite (bool_decide_eq_false_2 P) by assumption ];
  simpl.

Lemma spatially_constant_Terminal (c : ExprClass) :
  spatially_constant_types c = true -> isinstance_Terminal c = true.
Proof. destruct c; simpl; congruence. Qed.

(** C7: for a terminal [f] that is not a variable, and any [v] such that the
    symmetric difference of the two free-index sets is empty,
    [VariableDerivative(f, v)] is [Zero(f.shape())] and no derivative node is
    built. *)
Theorem VariableDerivative_terminal_independent (f v : Expr) :
  isinstance_Terminal (cls f) = true ->
  isinstance_Variable (cls f) = false ->
  symmetric_difference (free_indices f) (free_indices v) = ∅ ->
  VariableDerivative f v = Ok (ZeroObject (shape f)).
Proof.
  intros HT HV Hfree.
  unfold VariableDerivative, VariableDerivative__new__.
  rewrite HT, HV, Hfree. simpl.
  rewrite bool_decide_eq_true_2 by reflexivity. reflexivity.
Qed.

Lemma SpatialDerivative__new___varying (expression : Expr) (indices : list IndexBase) :
  spatially_constant_types (cls expression) = false ->
  SpatialDerivative__new__ expression indices = Ok Instance.
Proof.
  intros Hvar. unfold SpatialDerivative__new__. rewrite Hvar.
  destruct (isinstance_Terminal _); [case_bool_decide |]; reflexivity.
Qed.

(** C5: for a spatially constant terminal and an index tuple in which every
    index occurs exactly twice (fixed integers apart), [SpatialDerivative]
    returns [Zero] of the operand's shape; for an ordinary coefficient whose
    cell has a spatial dimension and the single index [(i,)] it returns a
    node that is not [Zero], with [i] among its free indices and bound to
    that dimension. *)
Theorem SpatialDerivative_precheck :
  (forall (expression : Expr) (indices : list IndexBase),
     isinstance_Terminal (cls expression) = true ->
     spatially_constant_types (cls expression) = true ->
     self_paired (Index_entries indices) ->
     SpatialDerivative domain2dim expression indices
     = Ok (ZeroObject (shape expression)))
  /\ (forall (w : Coefficient.CoefficientObject) (i : Index) (dim : nat),
        Coefficient.class w = Coefficient.CoefficientCls ->
        domain2dim !! Coefficient.cell w = Some dim ->
        exists o,
          SpatialDerivative domain2dim (Coefficient.as_Expr w) [Idx i] = Ok o
          /\ is_Zero o = false
          /\ i ∈ Object_free_indices o
          /\ Object_index_dimensions o !! i = Some dim).
Proof.
  split.
  - intros expression indices HT HC Hpaired.
    unfold SpatialDerivative, SpatialDerivative__new__.
    rewrite HT, HC, (self_paired_length _ Hpaired).
    rewrite bool_decide_eq_true_2 by reflexivity. reflexivity.
  - intros w i dim Hclass Hdim.
    unfold SpatialDerivative.
    rewrite SpatialDerivative__new___varying
      by (simpl; rewrite Hclass; reflexivity).
    unfold type_call, SpatialDerivative__init__, known_domain, subscript.
    rewrite extract_indices_single_None.
    cbn [mbind result_bind Coefficient.as_Expr domain free_indices
         index_dimensions mapM app length replicate fmap list_fmap mret result_ret].
    rewrite Hdim.
    cbn [mbind result_bind Coefficient.as_Expr domain free_indices
         index_dimensions mapM app length replicate fmap list_fmap mret result_ret].
    rewrite extract_indices_single_Some.
    eexists. split; [reflexivity |]. simpl.
    split; [reflexivity |]. split; [apply list_elem_of_here |].
    apply lookup_singleton_eq.
Qed.


(** C6: for [f] with a domain of spatial dimension [dim]: a spatially
    constant [f] gives [Zero((dim,) + f.shape())]; any other [f] without free
    indices gives a [Grad] node of shape [(dim,) + f.shape()], and with free
    indices construction fails.  In particular [Grad(Constant(cell))] on a
    cell of dimension 2 is [Zero((2,))], and [Grad(Coefficient(element))] on
    such a cell has shape [(2,) + element.value_shape()]. *)
Theorem Grad_precheck :
  (forall (f : Expr) (d : Domain) (dim : nat),
     domain f = Some d ->
     domain2dim !! d = Some dim ->
     (spatially_constant_types (cls f) = true ->
      Grad domain2dim f = Ok (ZeroObject (dim :: shape f)))
     /\ (spatially_constant_types (cls f) = false ->
         free_indices f = [] ->
         Grad domain2dim f = Ok (GradObject f dim)
         /\ Object_shape (GradObject f dim) = dim :: shape f)
     /\ (spatially_constant_types (cls f) = false ->
         free_indices f <> [] ->
         exists e, Grad domain2dim f = Raise e))
  /\ (forall (cell : Domain) (count : option Z) (g : Common.Globals),
        domain2dim !! cell = Some 2 ->
        Grad domain2dim (Coefficient.as_Expr (Coefficient.Constant cell count g).1)
        = Ok (ZeroObject [2]))
  /\ (forall (element : FiniteElement.FiniteElementBase) (count : option Z)
             (g : Common.Globals),
        domain2dim !! FiniteElement.cell element = Some 2 ->
        exists o,
          Grad domain2dim (Coefficient.as_Expr (Coefficient.Coefficient element count g).1)
          = Ok o
          /\ is_Zero o = false
          /\ Object_shape o = 2 :: FiniteElement.value_shape element).
Proof.
  assert (Hgen : forall (f : Expr) (d : Domain) (dim : nat),
     domain f = Some d ->
     domain2dim !! d = Some dim ->
     (spatially_constant_types (cls f) = true ->
      Grad domain2dim f = Ok (ZeroObject (dim :: shape f)))
     /\ (spatially_constant_types (cls f) = false ->
         free_indices f = [] ->
         Grad domain2dim f = Ok (GradObject f dim)
         /\ Object_shape (GradObject f dim) = dim :: shape f)
     /\ (spatially_constant_types (cls f) = false ->
         free_indices f <> [] ->
         exists e, Grad domain2dim f = Raise e)).
  { intros f d dim Hdom Hdim.
    unfold Grad, Grad__new__, Grad__init__, known_domain, subscript.
    rewrite Hdom. simpl. rewrite Hdim. simpl.
    split; [| split].
    - intros ->. reflexivity.
    - intros -> ->. split; reflexivity.
    - intros -> Hfree. simpl.
      rewrite bool_decide_eq_false_2 by exact Hfree. simpl. eauto. }
  split; [exact Hgen | split].
  - intros cell count g Hdim.
    destruct (Hgen (Coefficient.as_Expr (Coefficient.Constant cell count g).1) cell 2)
      as [Hzero _]; [destruct count; reflexivity | exact Hdim |].
    rewrite Hzero; [destruct count; reflexivity | destruct count; reflexivity].
  - intros element count g Hdim.
    destruct (Hgen (Coefficient.as_Expr (Coefficient.Coefficient element count g).1)
                (FiniteElement.cell element) 2)
      as (_ & Hnode & _); [destruct count; reflexivity | exact Hdim |].
    destruct Hnode as [Heq Hshape]; [destruct count; reflexivity .. |].
    eexists. split; [exact Heq |]. split; [reflexivity |].
    rewrite Hshape. destruct count; reflexivity.
Qed.

(** What [VariableDerivative.__init__] accepts, for a variable [v]: the two
    free-index sets have to be equal. *)
Lemma VariableDerivative__init___accepts (f v : Expr) :
  cls v = VariableClass ->
  is_Ok (VariableDerivative__init__ f v)
  = bool_decide (symmetric_difference (free_indices f) (free_indices v) = ∅).
Proof.
  intros Hv. unfold VariableDerivative__init__. rewrite Hv. simpl.
  case_bool_decide; reflexivity.
Qed.

(** C1, as the code behaves: with the index [i] free in both [f = u[i]] and
    the variable [v], the assertion of [VariableDerivative.__init__] passes
    and a node with the free indices [(i, i)] is built; with the disjoint
    sets [{i}] and [{}] the same assertion fails, under the message that
    repeated indices are not allowed. *)
Theorem VariableDerivative_shared_index :
  Samples.i ∈ free_indices Samples.u_i
  /\ Samples.i ∈ free_indices Samples.var_i
  /\ VariableDerivative Samples.u_i Samples.var_i
     = Ok (VariableDerivativeObject Samples.u_i Samples.var_i
             [Samples.i; Samples.i]
             (index_dimensions Samples.var_i ∪ index_dimensions Samples.u_i) [])
  /\ free_indices Samples.var = []
  /\ VariableDerivative Samples.u_i Samples.var
     = Raise (UFLException "Repeated indices not allowed in VariableDerivative.").
Proof.
  split; [apply list_elem_of_here |].
  split; [apply list_elem_of_here |].
  split; [reflexivity |].
  split; reflexivity.
Qed.

(** C2, as the code behaves: in [(i, i, i, j)] the index [i] occurs three
    times, yet [SpatialDerivative(Zero(()), (i, i, i, j))] is [Zero(())]: the
    length test of [__new__] holds (4 = 2 * 2) and [__init__] never runs.  On
    an operand that is not spatially constant, a tuple with an index that
    occurs three times or more is rejected. *)
Theorem SpatialDerivative_triple_index :
  multiplicity Samples.i
    (Index_entries [Idx Samples.i; Idx Samples.i; Idx Samples.i; Idx Samples.j]) = 3
  /\ SpatialDerivative domain2dim Samples.zero_scalar
       [Idx Samples.i; Idx Samples.i; Idx Samples.i; Idx Samples.j]
     = Ok (ZeroObject [])
  /\ (forall (expression : Expr) (indices : list IndexBase) (i : Index),
        spatially_constant_types (cls expression) = false ->
        3 ≤ multiplicity i (Index_entries indices) ->
        exists e, SpatialDerivative domain2dim expression indices = Raise e).
Proof.
  split; [reflexivity |]. split; [reflexivity |].
  intros expression indices i Hvar Hthree.
  unfold SpatialDerivative.
  rewrite SpatialDerivative__new___varying by exact Hvar.
  unfold type_call, SpatialDerivative__init__. simpl.
  rewrite (extract_indices_rejects_triple indices i Hthree). simpl. eauto.
Qed.

(** C3, as the code behaves: a spatially constant [f] of any rank gives
    [Zero(f.shape()[1:])], so [Div(Constant(cell))], of rank 0, is [Zero(())]
    and not an error; an [f] of rank 0 that is not spatially constant is
    rejected as a scalar. *)
Theorem Div_constant_scalar :
  (forall f : Expr,
     spatially_constant_types (cls f) = true ->
     Div f = Ok (ZeroObject (drop 1 (shape f))))
  /\ rank Samples.c = 0
  /\ Div Samples.c = Ok (ZeroObject [])
  /\ (forall f : Expr,
        spatially_constant_types (cls f) = false ->
        rank f = 0 ->
        Div f = Raise (UFLException "Can't take the divergence of a scalar.")).
Proof.
  split; [| split; [reflexivity | split; [reflexivity |]]].
  - intros f Hc. unfold Div, Div__new__. rewrite Hc. reflexivity.
  - intros f Hc Hrank. unfold Div, Div__new__, Div__init__.
    rewrite Hc, Hrank. reflexivity.
Qed.

(** A [VariableDerivative] node, when one is built, has the shape
    [f.shape() + v.shape()] and the free indices of [f] followed by those of
    [v]; [v] is then a variable, and the two free-index sets are equal. *)
Theorem VariableDerivative_node (f v : Expr) (o : Object) :
  VariableDerivative f v = Ok o ->
  is_Zero o = false ->
  Object_shape o = shape f ++ shape v
  /\ Object_free_indices o = free_indices f ++ free_indices v
  /\ cls v = VariableClass
  /\ symmetric_difference (free_indices f) (free_indices v) = ∅.
Proof.
  unfold VariableDerivative, VariableDerivative__new__, type_call.
  intros Hcall Hnode.
  assert (Hinit : VariableDerivative__init__ f v = Ok o).
  { destruct (negb _ && _); simpl in Hcall; [| exact Hcall].
    case_bool_decide; simpl in Hcall; [| exact Hcall].
    injection Hcall as <-. discriminate Hnode. }
  clear Hcall. unfold VariableDerivative__init__ in Hinit. simpl in Hinit.
  destruct (cls v) eqn:Hv; simpl in Hinit; try discriminate.
  - revert Hinit. case_assert (symmetric_difference (free_indices f) (free_indices v) = ∅);
      [| discriminate].
    intros [= <-]. auto.
  - destruct (isinstance_Variable _); discriminate.
Qed.

(** [Div(f)] for [f] of rank 1 or more without free indices has the shape
    [f.shape()[1:]]; it is a [Zero] exactly when [f] is spatially
    constant. *)
Theorem Div_shape (f : Expr) :
  1 ≤ rank f ->
  free_indices f = [] ->
  exists o, Div f = Ok o
            /\ Object_shape o = drop 1 (shape f)
            /\ is_Zero o = spatially_constant_types (cls f).
Proof.
  intros Hrank Hfree. unfold Div, Div__new__, Div__init__, type_call.
  destruct (spatially_constant_types (cls f)); simpl.
  - eauto.
  - rewrite (bool_decide_eq_true_2 (1 ≤ rank f)) by exact Hrank.
    rewrite (bool_decide_eq_true_2 (free_indices f = [])) by exact Hfree.
    simpl. eauto.
Qed.

(** C4, amended: [Curl(f)] and [Rot(f)] fail with "Need a vector." whenever
    the rank of [f] is not 1; the length of the vector is not compared with
    the spatial dimension.  When construction succeeds, [f] has rank 1, the
    result is never a [Zero], [Curl(f)] has shape [(dim,)] for the dimension
    [dim] of the domain of [f], and [Rot(f)] has the empty shape. *)
Theorem Curl_Rot_rank (f : Expr) :
  (rank f <> 1 ->
   Curl domain2dim f = Raise (UFLException "Need a vector.")
   /\ Rot f = Raise (UFLException "Need a vector."))
  /\ (forall o, Curl domain2dim f = Ok o ->
        rank f = 1 /\ is_Zero o = false
        /\ exists d dim, domain f = Some d /\ domain2dim !! d = Some dim
                         /\ Object_shape o = [dim])
  /\ (forall o, Rot f = Ok o ->
        rank f = 1 /\ is_Zero o = false /\ Object_shape o = []).
Proof.
  unfold Curl, Rot, Curl__init__, Rot__init__, type_call, known_domain, subscript.
  simpl. split; [| split].
  - intros Hrank. rewrite (bool_decide_eq_false_2 (rank f = 1)) by exact Hrank.
    split; reflexivity.
  - intros o. case_assert (rank f = 1); [| discriminate].
    case_assert (free_indices f = []); [| discriminate].
    destruct (domain f) as [d |]; simpl; [| discriminate].
    destruct (domain2dim !! d) as [dim |] eqn:Hdim; simpl; [| discriminate].
    intros [= <-]. eauto 10.
  - intros o. case_assert (rank f = 1); [| discriminate].
    case_assert (free_indices f = []); [| discriminate].
    intros [= <-]. auto.
Qed.

End DifferentiationProperties.

Section DifferentiationWitnesses.
Import Indexing Differentiation.

(** [SpatialDerivative(Zero(()), (i, i))] and
    [SpatialDerivative(Coefficient(element), (i,))] on a triangle. *)
Lemma SpatialDerivative_precheck_witness :
  SpatialDerivative Samples.domain2dim Samples.zero_scalar
    [Idx Samples.i; Idx Samples.i] = Ok (ZeroObject [])
  /\ exists o,
       SpatialDerivative Samples.domain2dim (Coefficient.as_Expr Samples.w)
         [Idx Samples.i] = Ok o
       /\ is_Zero o = false
       /\ Samples.i ∈ Object_free_indices o
       /\ Object_index_dimensions o !! Samples.i = Some 2.
Proof.
  destruct (SpatialDerivative_precheck Samples.domain2dim) as [Hzero Hnode]. split.
  - apply (Hzero Samples.zero_scalar [Idx Samples.i; Idx Samples.i]).
    + reflexivity.
    + reflexivity.
    + repeat constructor.
  - apply (Hnode Samples.w Samples.i 2).
    + reflexivity.
    + reflexivity.
Defined.


(** [VariableDerivative(Constant(cell), v)] for a variable without free
    indices. *)
Lemma VariableDerivative_terminal_independent_witness :
  VariableDerivative Samples.c Samples.var = Ok (ZeroObject []).
Proof.
  apply (VariableDerivative_terminal_independent Samples.c Samples.var).
  - reflexivity.
  - reflexivity.
  - vm_compute. reflexivity.
Defined.



(** [Grad] of a constant, of a coefficient and of [u[i]] on a triangle. *)
Lemma Grad_precheck_witness :
  Grad Samples.domain2dim Samples.c = Ok (ZeroObject [2])
  /\ Grad Samples.domain2dim (Coefficient.as_Expr Samples.w)
     = Ok (GradObject (Coefficient.as_Expr Samples.w) 2)
  /\ Object_shape (GradObject (Coefficient.as_Expr Samples.w) 2) = [2; 2]
  /\ exists e, Grad Samples.domain2dim Samples.u_i = Raise e.
Proof.
  destruct (Grad_precheck Samples.domain2dim) as [Hgen _].
  destruct (Hgen Samples.c "triangle" 2) as [Hzero _];
    [reflexivity | reflexivity |].
  destruct (Hgen (Coefficient.as_Expr Samples.w) "triangle" 2) as (_ & Hnode & _);
    [reflexivity | reflexivity |].
  destruct (Hgen Samples.u_i "triangle" 2) as (_ & _ & Hfree);
    [reflexivity | reflexivity |].
  split; [apply Hzero; reflexivity |].
  destruct Hnode as [Heq Hshape]; [reflexivity | reflexivity |].
  split; [exact Heq |]. split; [exact Hshape |].
  apply Hfree; [reflexivity | discriminate].
Defined.

(** [VariableDerivative(u[i], v)] with [i] free in the variable [v] too. *)
Lemma VariableDerivative_node_witness :
  Object_shape
    (VariableDerivativeObject Samples.u_i Samples.var_i [Samples.i; Samples.i]
       (index_dimensions Samples.var_i ∪ index_dimensions Samples.u_i) [])
  = shape Samples.u_i ++ shape Samples.var_i
  /\ cls Samples.var_i = VariableClass.
Proof.
  destruct (VariableDerivative_node Samples.u_i Samples.var_i
              (VariableDerivativeObject Samples.u_i Samples.var_i
                 [Samples.i; Samples.i]
                 (index_dimensions Samples.var_i ∪ index_dimensions Samples.u_i) []))
    as (Hshape & _ & Hcls & _); [reflexivity | reflexivity |].
  split; [exact Hshape | exact Hcls].
Defined.

(** [Div(VectorConstant(cell, 3))] and [Div] of a vector field. *)
Lemma Div_shape_witness :
  (exists o, Div Samples.C = Ok o /\ Object_shape o = [] /\ is_Zero o = true)
  /\ (exists o, Div Samples.v3 = Ok o /\ Object_shape o = [] /\ is_Zero o = false).
Proof.
  split.
  - apply (Div_shape Samples.C); [vm_compute; lia | reflexivity].
  - apply (Div_shape Samples.v3); [vm_compute; lia | reflexivity].
Defined.

(** C4 fails as stated: a vector of five components over a tetrahedron
    (dimension 3) is accepted by [Curl] and by [Rot]. *)
Lemma Curl_Rot_accept_any_vector :
  Samples.domain2dim !! "tetrahedron" = Some 3
  /\ domain Samples.v5 = Some "tetrahedron"
  /\ shape Samples.v5 = [5]
  /\ Curl Samples.domain2dim Samples.v5 = Ok (CurlObject Samples.v5 3)
  /\ Rot Samples.v5 = Ok (RotObject Samples.v5).
Proof. repeat split; reflexivity. Qed.

(** [Curl] and [Rot] of a scalar field, and of a vector of three components
    over a tetrahedron. *)
Lemma Curl_Rot_rank_witness :
  (Curl Samples.domain2dim Samples.p = Raise (UFLException "Need a vector.")
   /\ Rot Samples.p = Raise (UFLException "Need a vector."))
  /\ (rank Samples.v3 = 1
      /\ is_Zero (CurlObject Samples.v3 3) = false
      /\ exists d dim, domain Samples.v3 = Some d
                       /\ Samples.domain2dim !! d = Some dim
                       /\ Object_shape (CurlObject Samples.v3 3) = [dim])
  /\ (rank Samples.v3 = 1
      /\ is_Zero (RotObject Samples.v3) = false
      /\ Object_shape (RotObject Samples.v3) = []).
Proof.
  destruct (Curl_Rot_rank Samples.domain2dim Samples.p) as [Hscalar _].
  destruct (Curl_Rot_rank Samples.domain2dim Samples.v3) as (_ & Hcurl & Hrot).
  split; [apply Hscalar; vm_compute; discriminate |].
  split; [apply Hcurl; reflexivity | apply Hrot; reflexivity].
Defined.

End DifferentiationWitnesses.

(** * Properties of the replacement of terminals *)

Section ReplaceProperties.
Import Replace.

(** Induction on an expression, with the property known for the operands. *)
Lemma Expr_operands_ind (P : Expr -> Prop) :
  (forall r s, P (Terminal r s)) ->
  (forall t ops s, Forall P ops -> P (Operator t ops s)) ->
  forall e, P e.
Proof.
  intros HT HO. fix IH 1. intros [r s | t ops s].
  - apply HT.
  - apply HO. induction ops as [| u ops IHops]; constructor.
    + apply IH.
    + exact IHops.
Qed.

Lemma Expr_eqb_Operator (t t' : UFLType) (ops ops' : list Expr) (s s' : Shape) :
  Expr_eqb (Operator t ops s) (Operator t' ops' s')
  = bool_decide (t = t') && bool_decide (s = s') && operands_eqb ops ops'.
Proof.
  reflexivity.
Qed.

Lemma Expr_eqb_eq (a b : Expr) : Expr_eqb a b = true -> a = b.
Proof.
  revert b. induction a as [r s | t ops s IH] using Expr_operands_ind; intros [r' s' | t' ops' s'].
  - simpl. rewrite andb_true_iff, !bool_decide_eq_true. intros [-> ->]. reflexivity.
  - discriminate.
  - discriminate.
  - rewrite Expr_eqb_Operator, !andb_true_iff, !bool_decide_eq_true.
    intros [[-> ->] Hops]. f_equal.
    revert ops' Hops. induction IH as [| u ops Hu _ IHops]; intros [| u' ops'];
      simpl; try discriminate; [reflexivity |].
    rewrite andb_true_iff. intros [Hhead Htail].
    f_equal; [apply Hu, Hhead | apply IHops, Htail].
Qed.

Lemma Expr_eqb_refl (a : Expr) : Expr_eqb a a = true.
Proof.
  induction a as [r s | t ops s IH] using Expr_operands_ind.
  - simpl. rewrite !bool_decide_eq_true_2 by reflexivity. reflexivity.
  - rewrite Expr_eqb_Operator, !bool_decide_eq_true_2 by reflexivity. simpl.
    induction IH as [| u ops Hu _ IHops]; simpl; [reflexivity |].
    rewrite Hu, IHops. reflexivity.
Qed.

Lemma operands_eqb_refl (ops : list Expr) : operands_eqb ops ops = true.
Proof.
  induction ops as [| u ops IH]; simpl; [reflexivity |].
  rewrite Expr_eqb_refl, IH. reflexivity.
Qed.

Lemma as_ufl_values (mapping : Mapping) :
  (fun kv : Expr * Expr => (kv.1, as_ufl kv.2)) <$> mapping = mapping.
Proof.
  induction mapping as [| [k v] mapping IH]; simpl; [reflexivity |].
  f_equal. exact IH.
Qed.


Lemma identity_table_nil : identity_table [].
Proof. intros k v. discriminate. Qed.

Lemma identity_table_cons (v : Expr) (vcache : Mapping) :
  identity_table vcache ->
  has_exact_type v CoefficientDerivative = false ->
  identity_table ((v, v) :: vcache).
Proof.
  intros Htable Hv k r. simpl.
  destruct (Expr_eqb v k) eqn:Heq.
  - apply Expr_eqb_eq in Heq as <-. intros [= <-]. auto.
  - apply Htable.
Qed.

Section Traversal.

Variable _ufl_expr_reconstruct_ : Expr -> list Expr -> result Expr.
Variable expand_derivatives : Expr -> result Expr.

Abbreviation map_expr_dag := (map_expr_dag _ufl_expr_reconstruct_).
Abbreviation untouched := (untouched _ufl_expr_reconstruct_).
Abbreviation replace := (replace _ufl_expr_reconstruct_ expand_derivatives).

Lemma map_operands_untouched (function : Replacer) (operands : list Expr) :
  Forall (untouched function) operands ->
  forall vcache, identity_table vcache ->
    existsb (mentions (_mapping function)) operands = false ->
    if existsb (fun u => has_exact_type u CoefficientDerivative) operands
    then exists tr e,
        map_operands (map_expr_dag function) operands vcache = (tr, Raise e)
    else exists tr vcache',
        map_operands (map_expr_dag function) operands vcache
        = (tr, Ok (operands, vcache'))
        /\ identity_table vcache'.
Proof.
  induction 1 as [| u operands Hu _ IH]; intros vcache Htable Hkeys; simpl.
  - eauto.
  - simpl in Hkeys. apply orb_false_iff in Hkeys as [Hkey Hkeys].
    specialize (Hu vcache Htable Hkey).
    destruct (has_exact_type u CoefficientDerivative); simpl.
    + destruct Hu as (tr & e & ->). simpl. eauto.
    + destruct Hu as (tr & vcache' & -> & Htable'). simpl.
      specialize (IH vcache' Htable' Hkeys).
      destruct (existsb (fun u => has_exact_type u CoefficientDerivative) operands).
      * destruct IH as (tr' & e & ->). simpl. eauto.
      * destruct IH as (tr' & vcache'' & -> & Htable''). simpl. eauto.
Qed.

Lemma map_expr_dag_untouched (function : Replacer) (v : Expr) :
  untouched function v.
Proof.
  induction v as [r s | t ops s IH] using Expr_operands_ind;
    intros vcache Htable Hkeys.
  - simpl.
    destruct (get vcache (Terminal r s)) as [r' |] eqn:Hget.
    + apply Htable in Hget as [-> _]. eauto.
    + unfold terminal. simpl in Hkeys.
      destruct (get (_mapping function) (Terminal r s)) as [e |].
      * rewrite bool_decide_eq_true_2 in Hkeys by eauto. discriminate.
      * simpl. eexists _, _. split; [reflexivity |].
        apply identity_table_cons; [exact Htable | reflexivity].
  - simpl Replace.map_expr_dag. simpl in Hkeys.
    destruct (get vcache (Operator t ops s)) as [r' |] eqn:Hget.
    + apply Htable in Hget as [-> ->]. eauto.
    + pose proof (map_operands_untouched function ops IH vcache Htable Hkeys)
        as Hops.
      destruct t as [| name]; simpl.
      * eauto.
      * destruct (existsb (fun u => has_exact_type u CoefficientDerivative) ops)
           eqn:Hmarker.
        -- destruct Hops as (tr & e & ->). simpl. eauto.
        -- destruct Hops as (tr & vcache' & -> & Htable'). simpl.
           unfold expr, reuse_if_untouched. simpl.
           rewrite operands_eqb_refl. simpl.
           eexists _, _. split; [reflexivity |].
           apply identity_table_cons; [exact Htable' |].
           simpl. exact Hmarker.
Qed.

Lemma mentions_nil (e : Expr) : mentions [] e = false.
Proof.
  induction e as [r s | t ops s IH] using Expr_operands_ind; [reflexivity |].
  simpl. induction IH as [| u ops Hu _ IHops]; simpl; [reflexivity |].
  rewrite Hu, IHops. reflexivity.
Qed.

(** One pass over an expression that mentions no key of the mapping. *)
Lemma map_integrand_dags_untouched (function : Replacer) (e : Expr) :
  mentions (_mapping function) e = false ->
  if has_exact_type e CoefficientDerivative
  then exists exc,
      outcome (map_integrand_dags _ufl_expr_reconstruct_ function e) = Raise exc
  else outcome (map_integrand_dags _ufl_expr_reconstruct_ function e) = Ok e.
Proof.
  intros Hkeys.
  pose proof (map_expr_dag_untouched function e [] identity_table_nil Hkeys)
    as Hpass.
  unfold map_integrand_dags.
  destruct (has_exact_type e CoefficientDerivative).
  - destruct Hpass as (tr & exc & ->). simpl. eauto.
  - destruct Hpass as (tr & vcache & -> & _). reflexivity.
Qed.

(** One pass with an empty mapping. *)
Lemma map_integrand_dags_empty (e : Expr) :
  if has_exact_type e CoefficientDerivative
  then exists exc,
      outcome (map_integrand_dags _ufl_expr_reconstruct_ {| _mapping := [] |} e)
      = Raise exc
  else outcome (map_integrand_dags _ufl_expr_reconstruct_ {| _mapping := [] |} e)
       = Ok e.
Proof. apply map_integrand_dags_untouched, mentions_nil. Qed.

Lemma Replacer__init___invalid (mapping : Mapping) :
  invalid_mapping mapping -> exists exc, Replacer__init__ mapping = Raise exc.
Proof.
  intros Hbad. unfold Replacer__init__.
  destruct (forallb (fun kv => _ufl_is_terminal_ kv.1) mapping) eqn:Hkeys;
    [| simpl; eauto].
  destruct (forallb (fun kv => bool_decide (ufl_shape kv.1 = ufl_shape kv.2)) mapping)
    eqn:Hshapes; [| simpl; eauto].
  exfalso. apply Exists_exists in Hbad as (kv & Hin & Hkv).
  apply list_elem_of_In in Hin.
  rewrite forallb_forall in Hkeys. rewrite forallb_forall in Hshapes.
  specialize (Hkeys kv Hin). specialize (Hshapes kv Hin). simpl in *.
  apply bool_decide_eq_true in Hshapes.
  destruct Hkv as [Hkey | Hshape]; congruence.
Qed.

(** C8, amended: for a terminal [t] and an expression [v] of the same shape,
    [replace(t, {t: v})] is [v]; for an expression [e] that holds no
    coefficient-derivative marker, [replace(e, {})] is [e]. *)
Theorem replace_identity :
  (forall (repr : string) (s : Shape) (v : Expr),
     ufl_shape v = s ->
     outcome (replace (Terminal repr s) [(Terminal repr s, v)]) = Ok v)
  /\ (forall e : Expr,
        has_exact_type e CoefficientDerivative = false ->
        outcome (replace e []) = Ok e).
Proof.
  split.
  - intros repr s v <-. unfold replace. simpl.
    unfold Replacer__init__, as_ufl. simpl.
    rewrite !bool_decide_eq_true_2 by reflexivity. simpl.
    unfold terminal. simpl.
    rewrite !bool_decide_eq_true_2 by reflexivity. reflexivity.
  - intros e Hplain. unfold replace. rewrite Hplain. simpl.
    pose proof (map_integrand_dags_empty e) as Hpass. rewrite Hplain in Hpass.
    destruct (map_integrand_dags _ _ e) as [tr r]. simpl in *. exact Hpass.
Qed.

(** C9, amended: when some key of the mapping is not a terminal, or some
    value has another shape than its key, [replace] raises, and no handler of
    the [Replacer] is applied to any node; the mapping is checked after the
    scan of [e] for coefficient-derivative markers (and after their expansion
    when there is one), and before the substitution pass: without a marker
    the scan and the check are all that happens. *)
Theorem replace_validates_before_substituting (e : Expr) (mapping : Mapping) :
  invalid_mapping mapping ->
  (exists exc, outcome (replace e mapping) = Raise exc)
  /\ Forall (fun ev => is_Visit ev = false) (trace (replace e mapping))
  /\ (has_exact_type e CoefficientDerivative = false ->
      trace (replace e mapping) = [Scan e; Validate]
      /\ exists exc, Replacer__init__ mapping = Raise exc
                     /\ outcome (replace e mapping) = Raise exc).
Proof.
  intros Hbad. unfold replace. rewrite as_ufl_values.
  destruct (Replacer__init___invalid mapping Hbad) as [exc Hinit].
  rewrite Hinit.
  destruct (has_exact_type e CoefficientDerivative); simpl.
  - destruct (expand_derivatives e) as [e' | exc']; simpl;
      (split; [eauto | split; [repeat constructor | discriminate]]).
  - split; [eauto | split; [repeat constructor | eauto]].
Qed.

(** For an expression [e] without coefficient-derivative marker that
    mentions no key of a mapping the [Replacer] accepts,
    [replace(e, mapping)] is [e] itself. *)
Theorem replace_unmentioned (e : Expr) (mapping : Mapping) :
  is_Ok (Replacer__init__ mapping) = true ->
  has_exact_type e CoefficientDerivative = false ->
  mentions mapping e = false ->
  outcome (replace e mapping) = Ok e.
Proof.
  intros Hvalid Hplain Hkeys. unfold replace.
  rewrite as_ufl_values, Hplain.
  destruct (Replacer__init__ mapping) as [function |] eqn:Hinit;
    [| discriminate].
  assert (Hmapping : _mapping function = mapping).
  { unfold Replacer__init__, ufl_assert in Hinit.
    destruct (forallb (fun kv => _ufl_is_terminal_ kv.1) mapping);
      simpl in Hinit; [| discriminate].
    destruct (forallb (fun kv => bool_decide (ufl_shape kv.1 = ufl_shape kv.2)) mapping);
      simpl in Hinit; [| discriminate].
    injection Hinit as <-. reflexivity. }
  pose proof (map_integrand_dags_untouched function e) as Hpass.
  rewrite Hmapping, Hplain in Hpass. specialize (Hpass Hkeys).
  simpl. destruct (map_integrand_dags _ function e) as [tr r].
  simpl in *. exact Hpass.
Qed.

End Traversal.

(** C8 fails as stated: [duu] holds a coefficient-derivative marker, and
    whatever the expansion pass and the reconstruction do, [replace(duu, {})]
    does not return [duu]. *)
Lemma replace_expands_markers :
  has_exact_type ReplaceSamples.duu CoefficientDerivative = true
  /\ forall reconstruct expand,
       outcome (replace reconstruct expand ReplaceSamples.duu [])
       <> Ok ReplaceSamples.duu.
Proof.
  split; [reflexivity |].
  intros reconstruct expand. unfold replace.
  change (has_exact_type ReplaceSamples.duu CoefficientDerivative) with true.
  simpl.
  destruct (expand ReplaceSamples.duu) as [e' | exc]; simpl; [| discriminate].
  pose proof (map_integrand_dags_empty reconstruct e') as Hpass.
  destruct (has_exact_type e' CoefficientDerivative) eqn:Hmarker.
  - destruct Hpass as [exc Hraise].
    destruct (map_integrand_dags reconstruct _ e') as [tr r]. simpl in *.
    rewrite Hraise. discriminate.
  - destruct (map_integrand_dags reconstruct _ e') as [tr r]. simpl in *.
    rewrite Hpass. intros [= ->]. discriminate Hmarker.
Qed.

(** C9 fails as stated: with a key that is not a terminal, [replace] still
    scans [duu] and hands it to the expansion pass before the mapping is
    checked. *)
Lemma replace_expands_before_validating :
  invalid_mapping ReplaceSamples.bad_key
  /\ forall reconstruct expand,
       exists tr,
         trace (replace reconstruct expand ReplaceSamples.duu ReplaceSamples.bad_key)
         = Scan ReplaceSamples.duu :: Expand ReplaceSamples.duu :: tr.
Proof.
  split.
  - left. left. reflexivity.
  - intros reconstruct expand. unfold replace.
    change (has_exact_type ReplaceSamples.duu CoefficientDerivative) with true.
    simpl.
    destruct (expand ReplaceSamples.duu) as [e' | exc]; simpl; eauto.
Qed.

(** [replace(u, {u: u*u})] and [replace(u*u, {})]. *)
Lemma replace_identity_witness :
  outcome (replace ReplaceSamples.rebuild ReplaceSamples.nothing_to_expand
             ReplaceSamples.u [(ReplaceSamples.u, ReplaceSamples.uu)])
  = Ok ReplaceSamples.uu
  /\ outcome (replace ReplaceSamples.rebuild ReplaceSamples.nothing_to_expand
                ReplaceSamples.uu [])
     = Ok ReplaceSamples.uu.
Proof.
  destruct (replace_identity ReplaceSamples.rebuild ReplaceSamples.nothing_to_expand)
    as [Hterminal Hempty].
  split.
  - apply (Hterminal "u" [] ReplaceSamples.uu). reflexivity.
  - apply (Hempty ReplaceSamples.uu). reflexivity.
Defined.

(** [replace(u*u, {f: g})]. *)
Lemma replace_unmentioned_witness :
  outcome (replace ReplaceSamples.rebuild ReplaceSamples.nothing_to_expand
             ReplaceSamples.uu [(ReplaceSamples.f, ReplaceSamples.g)])
  = Ok ReplaceSamples.uu.
Proof.
  apply (replace_unmentioned ReplaceSamples.rebuild ReplaceSamples.nothing_to_expand
           ReplaceSamples.uu [(ReplaceSamples.f, ReplaceSamples.g)]).
  - reflexivity.
  - reflexivity.
  - reflexivity.
Defined.

(** [replace(u*u, {u: f})] with [f] of another shape than [u]. *)
Lemma replace_validates_before_substituting_witness :
  invalid_mapping ReplaceSamples.bad_shape
  /\ (exists exc,
        outcome (replace ReplaceSamples.rebuild ReplaceSamples.nothing_to_expand
                   ReplaceSamples.uu ReplaceSamples.bad_shape) = Raise exc)
  /\ Forall (fun ev => is_Visit ev = false)
       (trace (replace ReplaceSamples.rebuild ReplaceSamples.nothing_to_expand
                 ReplaceSamples.uu ReplaceSamples.bad_shape)).
Proof.
  assert (Hbad : invalid_mapping ReplaceSamples.bad_shape).
  { left. right. simpl. discriminate. }
  split; [exact Hbad |].
  destruct (replace_validates_before_substituting ReplaceSamples.rebuild
              ReplaceSamples.nothing_to_expand ReplaceSamples.uu
              ReplaceSamples.bad_shape Hbad) as (Hraise & Hvisit & _).
  split; [exact Hraise | exact Hvisit].
Defined.

End ReplaceProperties.

(** * Properties of the form arguments *)

Section ArgumentProperties.
Import FiniteElement Common Argument.

(** C10: [TestFunction(element)] has the count -2 and
    [TrialFunction(element)] the count -1, whatever the global counters hold;
    two arguments are equal exactly when their elements and their counts
    are, and an argument equals nothing that is not an argument; so two test
    functions (or two trial functions) are equal exactly when their elements
    are, a test function never equals a trial function, and the object built
    does not depend on the counters. *)
Theorem TestFunction_TrialFunction_equality
    (e1 e2 : FiniteElementBase) (g1 g2 : Globals) :
  _count (TestFunction e1 g1).1 = (-2)%Z
  /\ _count (TrialFunction e1 g1).1 = (-1)%Z
  /\ (forall a b : ArgumentObject,
        Argument__eq__ a (AnArgument b) = true
        <-> _element a = _element b /\ _count a = _count b)
  /\ (forall (a : ArgumentObject) (w : Coefficient.CoefficientObject),
        Argument__eq__ a (ACoefficient w) = false
        /\ Argument__eq__ a Another = false)
  /\ (Argument__eq__ (TestFunction e1 g1).1 (AnArgument (TestFunction e2 g2).1) = true
      <-> e1 = e2)
  /\ (Argument__eq__ (TrialFunction e1 g1).1 (AnArgument (TrialFunction e2 g2).1) = true
      <-> e1 = e2)
  /\ Argument__eq__ (TestFunction e1 g1).1 (AnArgument (TrialFunction e1 g2).1) = false
  /\ (TestFunction e1 g1).1 = (TestFunction e1 g2).1
  /\ (TrialFunction e1 g1).1 = (TrialFunction e1 g2).1.
Proof.
  assert (Heq : forall a b : ArgumentObject,
             Argument__eq__ a (AnArgument b) = true
             <-> _element a = _element b /\ _count a = _count b).
  { intros a b. unfold Argument__eq__.
    rewrite andb_true_iff, !bool_decide_eq_true. reflexivity. }
  assert (Hsame : forall (c : Z) (g g' : Globals),
             Argument__eq__ (Argument e1 (Some c) g).1
               (AnArgument (Argument e2 (Some c) g').1) = true
             <-> e1 = e2).
  { intros c g g'. rewrite Heq. simpl. split; [intros [He _]; exact He | auto]. }
  split; [reflexivity |]. split; [reflexivity |].
  split; [exact Heq |].
  split; [intros a w; split; reflexivity |].
  split; [apply Hsame |]. split; [apply Hsame |].
  split; [| split; reflexivity].
  unfold Argument__eq__. simpl. apply andb_false_r.
Qed.

End ArgumentProperties.

(** * Further properties of the differentiation operators *)

Section DifferentiationOutcomes.
Import Indexing Differentiation.

Variable domain2dim : gmap Domain nat.

Abbreviation resolvable := (Outcomes.resolvable domain2dim).

(** Case analysis on the condition of a [ufl_assert]. *)
Ltac split_assert P :=
  destruct (decide P);
  [ rewrite (bool_decide_eq_true_2 P) by assumption
  | rewrite (bool_decide_eq_false_2 P) by assumption ];
  simpl.

(** [VariableDerivative(f, v)] builds a derivative node exactly when [v] is
    a variable, [f] is not a terminal other than a variable, and the two
    free-index sets are equal. *)
Theorem VariableDerivative_builds_node_iff (f v : Expr) :
  (exists o, VariableDerivative f v = Ok o /\ is_Zero o = false)
  <-> cls v = VariableClass
      /\ negb (isinstance_Variable (cls f)) && isinstance_Terminal (cls f) = false
      /\ symmetric_difference (free_indices f) (free_indices v) = ∅.
Proof.
  unfold VariableDerivative, VariableDerivative__new__, VariableDerivative__init__,
    type_call.
  destruct (negb (isinstance_Variable (cls f)) && isinstance_Terminal (cls f));
    simpl.
  - split.
    + intros (o & Hcall & Hnode). revert Hcall.
      split_assert (symmetric_difference (free_indices f) (free_indices v) = ∅).
      * intros [= <-]. discriminate Hnode.
      * destruct (cls v) as [| | | | | | | | | | c |]; simpl; try discriminate.
        destruct (isinstance_Variable c); discriminate.
    + intros (_ & Hterminal & _). discriminate Hterminal.
  - split.
    + intros (o & Hcall & _). revert Hcall.
      destruct (cls v) as [| | | | | | | | | | c |]; simpl; try discriminate.
      * split_assert (symmetric_difference (free_indices f) (free_indices v) = ∅);
          [auto | discriminate].
      * destruct (isinstance_Variable c); discriminate.
    + intros (-> & _ & Hsets). simpl.
      rewrite bool_decide_eq_true_2 by exact Hsets. simpl. eauto.
Qed.

(** With an indexed [v], [VariableDerivative(f, v)] never builds a node: it
    is the [Zero] of the short-circuit, or it fails; when [v] indexes a
    variable the failure is the [NameError] of [ufl_warning]. *)
Theorem VariableDerivative_Indexed (f v : Expr) (c : ExprClass) :
  cls v = IndexedClass c ->
  VariableDerivative f v
  = if negb (isinstance_Variable (cls f)) && isinstance_Terminal (cls f)
       && bool_decide (symmetric_difference (free_indices f) (free_indices v) = ∅)
    then Ok (ZeroObject (shape f))
    else if isinstance_Variable c then Raise (NameError "ufl_warning")
    else Raise (UFLException "Expecting a Variable in VariableDerivative.").
Proof.
  intros Hv.
  unfold VariableDerivative, VariableDerivative__new__, VariableDerivative__init__,
    type_call.
  rewrite Hv.
  destruct (negb (isinstance_Variable (cls f)) && isinstance_Terminal (cls f));
    simpl.
  - case_bool_decide; simpl; [reflexivity |].
    destruct (isinstance_Variable c); reflexivity.
  - destruct (isinstance_Variable c); reflexivity.
Qed.


(** [Grad(f)] succeeds exactly when the domain of [f] has a spatial dimension
    and [f] is spatially constant or free of indices: also a constant, whose
    gradient is zero whatever the cell, needs a domain.  Without a domain the
    failure is an assertion, with a domain unknown to the table a
    [KeyError]. *)
Theorem Grad_succeeds_iff (f : Expr) :
  (is_Ok (Grad domain2dim f) = true
   <-> resolvable f
       /\ (spatially_constant_types (cls f) = true \/ free_indices f = []))
  /\ (domain f = None -> exists message, Grad domain2dim f = Raise (UFLException message))
  /\ (forall d, domain f = Some d -> domain2dim !! d = None ->
      Grad domain2dim f = Raise KeyError).
Proof.
  unfold Outcomes.resolvable, Grad, Grad__new__, Grad__init__, type_call, known_domain,
    subscript.
  split; [| split].
  - destruct (domain f) as [d |]; simpl.
    + destruct (domain2dim !! d) as [dim |] eqn:Hdim; simpl.
      * destruct (spatially_constant_types (cls f)); simpl.
        -- split; [eauto 10 | reflexivity].
        -- split_assert (free_indices f = []).
           ++ split; [eauto 10 | reflexivity].
           ++ split; [discriminate |]. intros (_ & [? | ?]); congruence.
      * split.
        -- destruct (spatially_constant_types (cls f)); discriminate.
        -- intros ((d' & dim & [= <-] & Hdim') & _). congruence.
    + split.
      * destruct (spatially_constant_types (cls f)); discriminate.
      * intros ((d & dim & Hd & _) & _). discriminate.
  - intros ->. destruct (spatially_constant_types (cls f)); simpl; eauto.
  - intros d -> Hmiss.
    destruct (spatially_constant_types (cls f)); simpl; rewrite Hmiss; reflexivity.
Qed.

(** [Div(f)] succeeds exactly when [f] is spatially constant, or has rank 1
    or more and no free indices; it never looks at the domain. *)
Theorem Div_succeeds_iff (f : Expr) :
  is_Ok (Div f) = true
  <-> spatially_constant_types (cls f) = true
      \/ (1 ≤ rank f /\ free_indices f = []).
Proof.
  unfold Div, Div__new__, Div__init__, type_call.
  destruct (spatially_constant_types (cls f)); simpl.
  - split; [auto | reflexivity].
  - split_assert (1 ≤ rank f).
    + split_assert (free_indices f = []).
      * split; [auto | reflexivity].
      * split; [discriminate | intros [? | [_ ?]]; congruence].
    + split; [discriminate | intros [? | [? _]]; [congruence | lia]].
Qed.



(** Whatever [Grad], [Div], [Curl] or [Rot] returns has no free indices,
    and so does the operand of every node they build. *)
Theorem compound_derivatives_index_free (f : Expr) (o : Object) :
  Grad domain2dim f = Ok o \/ Div f = Ok o
  \/ Curl domain2dim f = Ok o \/ Rot f = Ok o ->
  Object_free_indices o = []
  /\ (is_Zero o = false -> free_indices f = []).
Proof.
  unfold Grad, Grad__new__, Grad__init__, Div, Div__new__, Div__init__,
    Curl, Curl__init__, Rot, Rot__init__, type_call, known_domain, subscript.
  intros [Hcall | [Hcall | [Hcall | Hcall]]]; revert Hcall; simpl.
  - destruct (spatially_constant_types (cls f)); simpl;
      (destruct (domain f) as [d |]; simpl; [| discriminate]);
      (destruct (domain2dim !! d) as [dim |]; simpl; [| discriminate]).
    + intros [= <-]. split; [reflexivity | discriminate].
    + split_assert (free_indices f = []); [| discriminate].
      intros [= <-]. auto.
  - destruct (spatially_constant_types (cls f)); simpl.
    + intros [= <-]. split; [reflexivity | discriminate].
    + split_assert (1 ≤ rank f); [| discriminate].
      split_assert (free_indices f = []); [| discriminate].
      intros [= <-]. auto.
  - split_assert (rank f = 1); [| discriminate].
    split_assert (free_indices f = []); [| discriminate].
    destruct (domain f) as [d |]; simpl; [| discriminate].
    destruct (domain2dim !! d) as [dim |]; simpl; [| discriminate].
    intros [= <-]. auto.
  - split_assert (rank f = 1); [| discriminate].
    split_assert (free_indices f = []); [| discriminate].
    intros [= <-]. auto.
Qed.

(** The gradient has one axis more than its operand, and the divergence of
    anything shaped like [Grad(f)], free of indices, has the shape of [f]
    again. *)
Theorem Div_of_Grad_shape (f g : Expr) (o : Object) :
  Grad domain2dim f = Ok o ->
  shape g = Object_shape o ->
  free_indices g = [] ->
  length (Object_shape o) = S (rank f)
  /\ exists o', Div g = Ok o' /\ Object_shape o' = shape f.
Proof.
  intros Hgrad Hshape Hfree.
  assert (Ho : exists dim, Object_shape o = dim :: shape f).
  { revert Hgrad.
    unfold Grad, Grad__new__, Grad__init__, type_call, known_domain, subscript.
    destruct (spatially_constant_types (cls f)); simpl;
      (destruct (domain f) as [d |]; simpl; [| discriminate]);
      (destruct (domain2dim !! d) as [dim |]; simpl; [| discriminate]).
    - intros [= <-]. eauto.
    - split_assert (free_indices f = []); [| discriminate].
      intros [= <-]. eauto. }
  destruct Ho as [dim Ho]. rewrite Ho in *. split; [reflexivity |].
  unfold Div, Div__new__, Div__init__, type_call, rank.
  destruct (spatially_constant_types (cls g)); simpl.
  - rewrite Hshape. eauto.
  - rewrite (bool_decide_eq_true_2 (1 ≤ length (shape g)))
      by (rewrite Hshape; simpl; lia).
    rewrite (bool_decide_eq_true_2 (free_indices g = [])) by exact Hfree.
    simpl. eexists. split; [reflexivity |]. simpl. rewrite Hshape. reflexivity.
Qed.

(** Past the short-circuit, [SpatialDerivative] needs the spatial dimension:
    on an operand that is not spatially constant it fails whenever the
    domain is missing or unknown to the table, whatever the indices. *)
Theorem SpatialDerivative_needs_domain (expression : Expr) (indices : list IndexBase) :
  spatially_constant_types (cls expression) = false ->
  (forall d, domain expression = Some d -> domain2dim !! d = None) ->
  exists e, SpatialDerivative domain2dim expression indices = Raise e.
Proof.
  intros Hvar Hdomain.
  unfold SpatialDerivative, SpatialDerivative__new__. rewrite Hvar.
  assert (Hinit : exists e,
             SpatialDerivative__init__ domain2dim expression indices = Raise e).
  { unfold SpatialDerivative__init__, known_domain, subscript.
    destruct (extract_indices indices None) as [[[[dxf dxr] ?] ?] | e]; simpl;
      [| eauto].
    destruct (domain expression) as [d |]; simpl; [| eauto].
    rewrite (Hdomain d eq_refl). simpl. eauto. }
  destruct Hinit as [e Hinit].
  exists e. unfold type_call.
  destruct (isinstance_Terminal (cls expression)); simpl; [| exact Hinit].
  case_bool_decide; simpl; exact Hinit.
Qed.

(** A literal zero comes out of the short-circuits only: of
    [SpatialDerivative] for a spatially constant terminal whose indices pass
    the length test, of [VariableDerivative] for a terminal that is not a
    variable with the two free-index sets equal, of [Grad] and [Div] for a
    spatially constant operand, and never of [Curl] or [Rot]. *)
Theorem Zero_from_short_circuits (f v : Expr) (indices : list IndexBase) (s : Shape) :
  (SpatialDerivative domain2dim f indices = Ok (ZeroObject s) ->
   s = shape f
   /\ isinstance_Terminal (cls f) = true
   /\ spatially_constant_types (cls f) = true
   /\ length (Index_entries indices)
      = 2 * size (list_to_set (Index_entries indices) : gset Index))
  /\ (VariableDerivative f v = Ok (ZeroObject s) ->
      s = shape f
      /\ isinstance_Terminal (cls f) = true
      /\ isinstance_Variable (cls f) = false
      /\ symmetric_difference (free_indices f) (free_indices v) = ∅)
  /\ (Grad domain2dim f = Ok (ZeroObject s) ->
      spatially_constant_types (cls f) = true /\ drop 1 s = shape f)
  /\ (Div f = Ok (ZeroObject s) ->
      spatially_constant_types (cls f) = true /\ s = drop 1 (shape f))
  /\ Curl domain2dim f <> Ok (ZeroObject s)
  /\ Rot f <> Ok (ZeroObject s).
Proof.
  split; [| split; [| split; [| split; [| split]]]].
  - unfold SpatialDerivative, SpatialDerivative__new__, type_call.
    assert (Hinit : SpatialDerivative__init__ domain2dim f indices
                    <> Ok (ZeroObject s)).
    { unfold SpatialDerivative__init__, known_domain, subscript.
      destruct (extract_indices indices None) as [[[[dxf dxr] ?] ?] | e]; simpl;
        [| discriminate].
      destruct (domain f) as [d |]; simpl; [| discriminate].
      destruct (domain2dim !! d) as [dim |]; simpl; [| discriminate].
      destruct (mapM _ _) as [fdims | e]; simpl; [| discriminate].
      destruct (extract_indices _ _) as [[[[? ?] ?] ?] | e]; simpl; discriminate. }
    destruct (isinstance_Terminal (cls f)); simpl; [| intros H; destruct (Hinit H)].
    case_bool_decide as Hlen; simpl; [| intros H; destruct (Hinit H)].
    destruct (spatially_constant_types (cls f)); simpl;
      [| intros H; destruct (Hinit H)].
    intros [= <-]. auto.
  - unfold VariableDerivative, VariableDerivative__new__, type_call.
    assert (Hinit : VariableDerivative__init__ f v <> Ok (ZeroObject s)).
    { unfold VariableDerivative__init__. simpl.
      destruct (cls v) as [| | | | | | | | | | c |]; simpl; try discriminate.
      - case_bool_decide; simpl; discriminate.
      - destruct (isinstance_Variable c); discriminate. }
    destruct (isinstance_Variable (cls f)) eqn:HV, (isinstance_Terminal (cls f)) eqn:HT;
      simpl; try (intros H; destruct (Hinit H)).
    case_bool_decide as Hsets; simpl; [| intros H; destruct (Hinit H)].
    intros [= <-]. auto.
  - unfold Grad, Grad__new__, Grad__init__, type_call, known_domain, subscript.
    destruct (spatially_constant_types (cls f)); simpl.
    + destruct (domain f) as [d |]; simpl; [| discriminate].
      destruct (domain2dim !! d) as [dim |]; simpl; [| discriminate].
      intros [= <-]. auto.
    + destruct (domain f) as [d |]; simpl; [| discriminate].
      destruct (domain2dim !! d) as [dim |]; simpl; [| discriminate].
      split_assert (free_indices f = []); discriminate.
  - unfold Div, Div__new__, Div__init__, type_call.
    destruct (spatially_constant_types (cls f)); simpl.
    + intros [= <-]. auto.
    + split_assert (1 ≤ rank f); [| discriminate].
      split_assert (free_indices f = []); discriminate.
  - unfold Curl, Curl__init__, type_call, known_domain, subscript. simpl.
    split_assert (rank f = 1); [| discriminate].
    split_assert (free_indices f = []); [| discriminate].
    destruct (domain f) as [d |]; simpl; [| discriminate].
    destruct (domain2dim !! d) as [dim |]; simpl; discriminate.
  - unfold Rot, Rot__init__, type_call. simpl.
    split_assert (rank f = 1); [| discriminate].
    split_assert (free_indices f = []); discriminate.
Qed.

End DifferentiationOutcomes.

Section DifferentiationOutcomeWitnesses.
Import Indexing Differentiation.

(** [VariableDerivative(u[i], v[i])]: the [NameError]. *)
Lemma VariableDerivative_Indexed_witness :
  VariableDerivative Samples.u_i Outcomes.v_i = Raise (NameError "ufl_warning").
Proof.
  apply (VariableDerivative_Indexed Samples.u_i Outcomes.v_i VariableClass).
  reflexivity.
Defined.

(** [Grad] of a coefficient over a triangle. *)
Lemma compound_derivatives_index_free_witness :
  Object_free_indices (GradObject (Coefficient.as_Expr Samples.w) 2) = []
  /\ (is_Zero (GradObject (Coefficient.as_Expr Samples.w) 2) = false ->
      free_indices (Coefficient.as_Expr Samples.w) = []).
Proof.
  apply (compound_derivatives_index_free Samples.domain2dim
           (Coefficient.as_Expr Samples.w)).
  left. reflexivity.
Defined.

(** [Div] of a tensor field shaped like [Grad] of a vector of three
    components over a tetrahedron. *)
Lemma Div_of_Grad_shape_witness :
  length (Object_shape (GradObject Samples.v3 3)) = S (rank Samples.v3)
  /\ exists o', Div Outcomes.t33 = Ok o' /\ Object_shape o' = shape Samples.v3.
Proof.
  apply (Div_of_Grad_shape Samples.domain2dim Samples.v3 Outcomes.t33
           (GradObject Samples.v3 3)).
  - reflexivity.
  - reflexivity.
  - reflexivity.
Defined.

(** [SpatialDerivative] of a field without domain. *)
Lemma SpatialDerivative_needs_domain_witness :
  exists e,
    SpatialDerivative Samples.domain2dim Outcomes.nowhere [Idx Samples.i] = Raise e.
Proof.
  apply (SpatialDerivative_needs_domain Samples.domain2dim Outcomes.nowhere
           [Idx Samples.i]).
  - reflexivity.
  - intros d Hd. discriminate Hd.
Defined.

End DifferentiationOutcomeWitnesses.

(** * Further properties of the replacement of terminals *)

Section ReplaceOutcomes.
Import Replace Substitution.

Lemma operands_eqb_eq (l l' : list Expr) : operands_eqb l l' = true -> l = l'.
Proof.
  revert l'. induction l as [| u l IH]; intros [| u' l']; simpl;
    try discriminate; [reflexivity |].
  rewrite andb_true_iff. intros [Hu Hl].
  f_equal; [apply Expr_eqb_eq, Hu | apply IH, Hl].
Qed.

Lemma invalid_mapping_forallb (mapping : Mapping) :
  invalid_mapping mapping
  <-> forallb (fun kv => _ufl_is_terminal_ kv.1) mapping
      && forallb (fun kv => bool_decide (ufl_shape kv.1 = ufl_shape kv.2)) mapping
      = false.
Proof.
  unfold invalid_mapping.
  induction mapping as [| [k v] mapping IH]; simpl.
  - split; [intros H; inversion H | discriminate].
  - rewrite Exists_cons, IH. simpl.
    destruct (_ufl_is_terminal_ k); simpl.
    + case_bool_decide as Hshape; simpl.
      * split; [intros [[? | ?] | ?]; [discriminate | contradiction | assumption] | auto].
      * split; [intros _ | auto].
        destruct (forallb _ mapping); reflexivity.
    + split; auto.
Qed.

Lemma Replacer__init___valid (mapping : Mapping) :
  ~ invalid_mapping mapping -> Replacer__init__ mapping = Ok {| _mapping := mapping |}.
Proof.
  rewrite invalid_mapping_forallb. unfold Replacer__init__, ufl_assert.
  destruct (forallb (fun kv => _ufl_is_terminal_ kv.1) mapping); simpl;
    [| congruence].
  destruct (forallb _ mapping); simpl; congruence.
Qed.

(** The [Replacer] accepts a mapping exactly when every key is a terminal
    and every value has the shape of its key; it then holds the mapping it
    was given.  A key that is not a terminal is reported before any
    difference of shapes. *)
Theorem Replacer_accepts_iff (mapping : Mapping) :
  (is_Ok (Replacer__init__ mapping) = true <-> ~ invalid_mapping mapping)
  /\ (forall function, Replacer__init__ mapping = Ok function ->
      _mapping function = mapping)
  /\ (Exists (fun kv => _ufl_is_terminal_ kv.1 = false) mapping ->
      Replacer__init__ mapping
      = Raise (UFLException "This implementation can only replace Terminal objects.")).
Proof.
  rewrite invalid_mapping_forallb. unfold Replacer__init__, ufl_assert.
  split; [| split].
  - destruct (forallb (fun kv => _ufl_is_terminal_ kv.1) mapping); simpl.
    + destruct (forallb _ mapping); simpl; split; congruence.
    + split; [discriminate | congruence].
  - intros function.
    destruct (forallb (fun kv => _ufl_is_terminal_ kv.1) mapping); simpl;
      [| discriminate].
    destruct (forallb _ mapping); simpl; [| discriminate].
    intros [= <-]. reflexivity.
  - intros Hkey.
    assert (Hkeys : forallb (fun kv => _ufl_is_terminal_ kv.1) mapping = false).
    { apply not_true_is_false. intros Hall. rewrite forallb_forall in Hall.
      apply Exists_exists in Hkey as (kv & Hin & Hkv).
      apply list_elem_of_In in Hin. specialize (Hall kv Hin). congruence. }
    rewrite Hkeys. reflexivity.
Qed.

(** In a mapping the [Replacer] accepts, what [get] finds for a key has the
    shape of the key. *)
Lemma get_shape (mapping : Mapping) (k v : Expr) :
  ~ invalid_mapping mapping -> get mapping k = Some v -> ufl_shape v = ufl_shape k.
Proof.
  unfold invalid_mapping. intros Hvalid.
  induction mapping as [| [k' v'] mapping IH]; simpl; [discriminate |].
  rewrite Exists_cons in Hvalid.
  destruct (Expr_eqb k' k) eqn:Heq.
  - apply Expr_eqb_eq in Heq as <-. intros [= <-].
    destruct (decide (ufl_shape k' = ufl_shape v')) as [Hs | Hs]; [congruence |].
    destruct Hvalid. left. right. exact Hs.
  - apply IH. intros Hrest. apply Hvalid. right. exact Hrest.
Qed.


Lemma substitute_shape (mapping : Mapping) (e : Expr) :
  ~ invalid_mapping mapping -> ufl_shape (substitute mapping e) = ufl_shape e.
Proof.
  intros Hvalid. destruct e as [r s | t ops s]; [| reflexivity].
  simpl. destruct (get mapping (Terminal r s)) as [v |] eqn:Hget; [| reflexivity].
  apply (get_shape mapping _ _ Hvalid Hget).
Qed.

Lemma substitution_table_cons (mapping vcache : Mapping) (v : Expr) :
  substitution_table mapping vcache ->
  substitution_table mapping ((v, substitute mapping v) :: vcache).
Proof.
  intros Htable k r. simpl.
  destruct (Expr_eqb v k) eqn:Heq.
  - apply Expr_eqb_eq in Heq as <-. intros [= <-]. reflexivity.
  - apply Htable.
Qed.

Section SubstitutionPass.

Variable _ufl_expr_reconstruct_ : Expr -> list Expr -> result Expr.
Variable expand_derivatives : Expr -> result Expr.

Abbreviation map_expr_dag := (map_expr_dag _ufl_expr_reconstruct_).
Abbreviation replace := (replace _ufl_expr_reconstruct_ expand_derivatives).
Abbreviation substituted := (substituted _ufl_expr_reconstruct_).
Abbreviation stops_at_marker := (stops_at_marker _ufl_expr_reconstruct_).

Lemma map_operands_substituted (function : Replacer) (operands : list Expr) :
  Forall (substituted function) operands ->
  forall vcache, substitution_table (_mapping function) vcache ->
    existsb (fun u => has_exact_type u CoefficientDerivative) operands = false ->
    exists tr vcache',
      map_operands (map_expr_dag function) operands vcache
      = (tr, Ok (substitute (_mapping function) <$> operands, vcache'))
      /\ substitution_table (_mapping function) vcache'.
Proof.
  induction 1 as [| u operands Hu _ IH]; intros vcache Htable Hplain; simpl.
  - eauto.
  - simpl in Hplain. apply orb_false_iff in Hplain as [Hu_plain Hplain].
    destruct (Hu vcache Htable Hu_plain) as (tr & vcache' & -> & Htable').
    simpl.
    destruct (IH vcache' Htable' Hplain) as (tr' & vcache'' & -> & Htable'').
    simpl. eauto.
Qed.

Lemma map_expr_dag_substituted (function : Replacer) (v : Expr) :
  rebuilds _ufl_expr_reconstruct_ -> substituted function v.
Proof.
  intros Hrebuild.
  induction v as [r s | t ops s IH] using Expr_operands_ind;
    intros vcache Htable Hplain.
  - simpl Replace.map_expr_dag.
    destruct (get vcache (Terminal r s)) as [r' |] eqn:Hget.
    + apply Htable in Hget as ->. eauto.
    + simpl. unfold terminal.
      assert (Hsame : match get (_mapping function) (Terminal r s) with
                      | Some e => e
                      | None => Terminal r s
                      end = substitute (_mapping function) (Terminal r s)).
      { simpl. destruct (get _ _); reflexivity. }
      rewrite Hsame. eexists _, _. split; [reflexivity |].
      apply substitution_table_cons, Htable.
  - simpl Replace.map_expr_dag.
    destruct (get vcache (Operator t ops s)) as [r' |] eqn:Hget.
    + apply Htable in Hget as ->. eauto.
    + simpl in Hplain. apply orb_false_iff in Hplain as [Ht Hplain].
      destruct t as [| name]; [discriminate Ht |].
      destruct (map_operands_substituted function ops IH vcache Htable Hplain)
        as (tr & vcache' & -> & Htable').
      simpl. unfold expr, reuse_if_untouched. simpl.
      assert (Hnode : (if operands_eqb (substitute (_mapping function) <$> ops) ops
                       then Ok (Operator (OtherOperator name) ops s)
                       else _ufl_expr_reconstruct_ (Operator (OtherOperator name) ops s)
                              (substitute (_mapping function) <$> ops))
                      = Ok (substitute (_mapping function)
                              (Operator (OtherOperator name) ops s))).
      { destruct (operands_eqb _ ops) eqn:Heq.
        - apply operands_eqb_eq in Heq. simpl. rewrite Heq. reflexivity.
        - apply Hrebuild. }
      rewrite Hnode. simpl. eexists _, _. split; [reflexivity |].
      apply (substitution_table_cons _ _ (Operator (OtherOperator name) ops s)),
        Htable'.
Qed.


(** Whatever the reconstruction does, [replace] on a terminal and a mapping
    the [Replacer] accepts returns what the mapping holds for the terminal,
    or the terminal itself; the result has the shape of the terminal. *)
Theorem replace_terminal (repr : string) (s : Shape) (mapping : Mapping) :
  ~ invalid_mapping mapping ->
  outcome (replace (Terminal repr s) mapping)
  = Ok (default (Terminal repr s) (get mapping (Terminal repr s)))
  /\ ufl_shape (default (Terminal repr s) (get mapping (Terminal repr s))) = s.
Proof.
  intros Hvalid. split.
  - unfold replace, Replace.replace.
    rewrite as_ufl_values, (Replacer__init___valid mapping Hvalid). simpl.
    unfold terminal. simpl.
    destruct (get mapping (Terminal repr s)); reflexivity.
  - apply (substitute_shape mapping (Terminal repr s) Hvalid).
Qed.

Lemma map_operands_stop_at_marker (function : Replacer) (operands : list Expr) :
  Forall (stops_at_marker function) operands ->
  forall vcache, identity_table vcache ->
    existsb (mentions (_mapping function)) operands = false ->
    existsb (fun u => has_exact_type u CoefficientDerivative) operands = true ->
    exists tr,
      map_operands (map_expr_dag function) operands vcache = (tr, Raise unexpanded).
Proof.
  induction 1 as [| u operands Hu _ IH]; intros vcache Htable Hkeys Hmarker;
    simpl in *; [discriminate |].
  apply orb_false_iff in Hkeys as [Hkey Hkeys].
  destruct (has_exact_type u CoefficientDerivative) eqn:Hu_marker.
  - destruct (Hu vcache Htable Hkey Hu_marker) as [tr ->]. simpl. eauto.
  - pose proof (map_expr_dag_untouched _ufl_expr_reconstruct_ function u
                  vcache Htable Hkey) as Hpass.
    rewrite Hu_marker in Hpass. destruct Hpass as (tr & vcache' & -> & Htable').
    simpl in *.
    destruct (IH vcache' Htable' Hkeys Hmarker) as [tr' ->]. simpl. eauto.
Qed.

Lemma map_expr_dag_stops_at_marker (function : Replacer) (v : Expr) :
  stops_at_marker function v.
Proof.
  induction v as [r s | t ops s IH] using Expr_operands_ind;
    intros vcache Htable Hkeys Hmarker; [discriminate Hmarker |].
  simpl Replace.map_expr_dag.
  destruct (get vcache (Operator t ops s)) as [r' |] eqn:Hget.
  - apply Htable in Hget as [_ Hplain]. congruence.
  - destruct t as [| name]; simpl; [eauto |].
    simpl in Hkeys, Hmarker.
    destruct (map_operands_stop_at_marker function ops IH vcache Htable Hkeys Hmarker)
      as [tr ->].
    simpl. eauto.
Qed.

(** An error of the expansion pass is the error of [replace]; and when the
    expansion leaves a marker in an expression that mentions no key of an
    accepted mapping, [replace] fails with "Derivatives should be applied
    before executing replace." *)
Theorem replace_unexpanded (e : Expr) (mapping : Mapping) :
  has_exact_type e CoefficientDerivative = true ->
  (forall exc, expand_derivatives e = Raise exc ->
   outcome (replace e mapping) = Raise exc)
  /\ (forall e', expand_derivatives e = Ok e' ->
      ~ invalid_mapping mapping ->
      has_exact_type e' CoefficientDerivative = true ->
      mentions mapping e' = false ->
      outcome (replace e mapping) = Raise unexpanded).
Proof.
  intros Hmarker. unfold replace, Replace.replace.
  rewrite as_ufl_values, Hmarker. split.
  - intros exc ->. reflexivity.
  - intros e' -> Hvalid Hmarker' Hkeys.
    rewrite (Replacer__init___valid mapping Hvalid).
    destruct (map_expr_dag_stops_at_marker {| _mapping := mapping |} e' []
                identity_table_nil Hkeys Hmarker') as [tr Hpass].
    simpl. unfold map_integrand_dags. rewrite Hpass. reflexivity.
Qed.

End SubstitutionPass.


(** [replace(w, {u: w, w: u})] is [u]. *)
Lemma replace_terminal_witness :
  outcome (replace ReplaceSamples.rebuild ReplaceSamples.nothing_to_expand
             Substitution.w Substitution.swap)
  = Ok ReplaceSamples.u
  /\ ufl_shape ReplaceSamples.u = [].
Proof.
  apply (replace_terminal ReplaceSamples.rebuild ReplaceSamples.nothing_to_expand
           "w" [] Substitution.swap).
  intros Hbad. apply invalid_mapping_forallb in Hbad. discriminate Hbad.
Defined.

(** [replace(d(u*u)/du, {f: g})] when the expansion pass returns its
    argument as it is. *)
Lemma replace_unexpanded_witness :
  outcome (replace ReplaceSamples.rebuild ReplaceSamples.nothing_to_expand
             ReplaceSamples.duu [(ReplaceSamples.f, ReplaceSamples.g)])
  = Raise unexpanded.
Proof.
  destruct (replace_unexpanded ReplaceSamples.rebuild ReplaceSamples.nothing_to_expand
              ReplaceSamples.duu [(ReplaceSamples.f, ReplaceSamples.g)] eq_refl)
    as [_ Hmarker].
  apply (Hmarker ReplaceSamples.duu).
  - reflexivity.
  - intros Hbad. apply invalid_mapping_forallb in Hbad. discriminate Hbad.
  - reflexivity.
  - reflexivity.
Defined.

End ReplaceOutcomes.

(** * Properties of the methods of the form arguments *)

Section Labels.
Import FormArguments.

Lemma pretty_N_go_length (x : N) (s : string) :
  String.length s ≤ String.length (pretty_N_go x s).
Proof.
  revert s. induction (N.lt_wf_0 x) as [x _ IH]; intros s.
  destruct (decide (x = 0%N)) as [-> | Hx]; [rewrite pretty_N_go_0; lia |].
  rewrite pretty_N_go_step by lia.
  etrans; [| apply IH, N.div_lt; lia]. simpl. lia.
Qed.

Lemma pretty_N_length (x : N) :
  (if decide (x < 10)%N then String.length (pretty x) = 1
   else 2 ≤ String.length (pretty x)).
Proof.
  destruct (decide (x < 10)%N) as [Hsmall | Hbig].
  - assert (Hcases : (x = 0 \/ x = 1 \/ x = 2 \/ x = 3 \/ x = 4 \/ x = 5
                      \/ x = 6 \/ x = 7 \/ x = 8 \/ x = 9)%N) by lia.
    repeat (destruct Hcases as [-> | Hcases]; [reflexivity |]).
    subst x. reflexivity.
  - unfold pretty, pretty_N. rewrite decide_False by lia.
    rewrite 2!pretty_N_go_step by (try apply N.div_str_pos_iff; lia).
    etrans; [| apply pretty_N_go_length]. simpl. lia.
Qed.

(** [str(count)] is one character long exactly for the counts 0 to 9. *)
Lemma str_single (count : Z) :
  String.length (str count) = 1 <-> (0 ≤ count ≤ 9)%Z.
Proof.
  unfold str, pretty, pretty_Z. destruct count as [| p | p].
  - split; [lia | reflexivity].
  - pose proof (pretty_N_length (N.pos p)) as Hlen.
    unfold pretty at 1, pretty_positive.
    destruct (decide (N.pos p < 10)%N); split; lia.
  - pose proof (pretty_N_length (N.pos p)) as Hlen.
    change (String.length ("-" +:+ pretty p)) with (S (String.length (pretty (N.pos p)))).
    destruct (decide (N.pos p < 10)%N); split; lia.
Qed.

Lemma length_append (a b : string) :
  String.length (a +:+ b) = String.length a + String.length b.
Proof. induction a as [| x a IH]; simpl; [reflexivity | rewrite IH; reflexivity]. Qed.

Lemma append_cancel_r (a b c : string) : a +:+ c = b +:+ c -> a = b.
Proof.
  revert b. induction a as [| x a IH]; intros [| y b] Heq; simpl in Heq.
  - reflexivity.
  - apply (f_equal String.length) in Heq. simpl in Heq.
    rewrite !length_append in Heq. simpl in Heq. exfalso. lia.
  - apply (f_equal String.length) in Heq. simpl in Heq.
    rewrite !length_append in Heq. simpl in Heq. exfalso. lia.
  - injection Heq as -> Heq. f_equal. apply IH, Heq.
Qed.

Lemma label_inj (p q c d : string) :
  String.length p = 2 -> String.length q = 2 ->
  label p c = label q d -> p = q /\ c = d.
Proof.
  destruct p as [| p1 [| p2 [| ? ?]]]; try discriminate.
  destruct q as [| q1 [| q2 [| ? ?]]]; try discriminate.
  intros _ _. unfold label.
  case_bool_decide as Hc; case_bool_decide as Hd; simpl; intros Heq;
    injection Heq as H1 H2 Heq; subst; apply (inj (String.app "")) in Heq.
  - auto.
  - apply (f_equal String.length) in Heq.
    rewrite !length_append in Heq. simpl in Heq. lia.
  - apply (f_equal String.length) in Heq.
    rewrite !length_append in Heq. simpl in Heq. lia.
  - apply append_cancel_r in Heq. auto.
Qed.

Lemma prefix_length (c : Coefficient.Class) : String.length (prefix c) = 2.
Proof. destruct c; reflexivity. Qed.


End Labels.

Section Reconstruction.
Import FiniteElement Common FormArguments.

Lemma keep_or_new_default {A} `{EqDecision A} (given : option A) (held : A) :
  default held (keep_or_new given held) = default held given.
Proof.
  destruct given as [x |]; simpl; [| reflexivity].
  case_bool_decide as Hx; simpl; congruence.
Qed.

Lemma keep_or_new_None {A} `{EqDecision A} (given : option A) (held : A) :
  keep_or_new given held = None <-> given = None \/ given = Some held.
Proof.
  destruct given as [x |]; simpl; [| tauto].
  case_bool_decide as Hx.
  - split; [intros _; right; congruence | reflexivity].
  - split; [discriminate | intros [H | H]; [discriminate | congruence]].
Qed.

(** [Argument.reconstruct] returns an argument with the element and the
    count asked for, each defaulting to the one held; it returns the object
    itself, and constructs nothing, when that changes neither; and
    reconstructing back to the old element and count gives an argument
    equal to the first. *)
Theorem Argument_reconstruct_fields (self : Argument.ArgumentObject)
    (count : option Z) (element : option FiniteElementBase) (g : Globals) :
  let new := (Argument_reconstruct self count element g).1 in
  Argument._element new = default (Argument._element self) element
  /\ Argument._count new = default (Argument._count self) count
  /\ ((count = None \/ count = Some (Argument._count self))
      /\ (element = None \/ element = Some (Argument._element self))
      -> Argument_reconstruct self count element g = (self, g))
  /\ (forall g',
        Argument.Argument__eq__
          (Argument_reconstruct new (Some (Argument._count self))
             (Some (Argument._element self)) g').1
          (Argument.AnArgument self) = true).
Proof.
  assert (Hfields : forall (a : Argument.ArgumentObject) c e h,
             Argument._element (Argument_reconstruct a c e h).1
             = default (Argument._element a) e
             /\ Argument._count (Argument_reconstruct a c e h).1
                = default (Argument._count a) c).
  { intros a c e h. unfold Argument_reconstruct.
    rewrite <- (keep_or_new_default e), <- (keep_or_new_default c).
    destruct (keep_or_new c _), (keep_or_new e _); simpl; auto. }
  simpl. split; [apply Hfields | split; [apply Hfields | split]].
  - intros [Hcount Helement]. unfold Argument_reconstruct.
    apply keep_or_new_None in Hcount, Helement. rewrite Hcount, Helement.
    reflexivity.
  - intros g'. unfold Argument.Argument__eq__.
    destruct (Hfields (Argument_reconstruct self count element g).1
                (Some (Argument._count self)) (Some (Argument._element self)) g')
      as [-> ->].
    simpl. rewrite !bool_decide_eq_true_2 by reflexivity. reflexivity.
Qed.

(** Coefficients are compared by element and count alone: the comparison is
    reflexive, symmetric and transitive, takes no notice of the class, so
    that a [Constant] equals a [Coefficient] over the same piecewise
    constant element with the same count, and never holds between a
    coefficient and an argument, from either side. *)
Theorem Coefficient_equality :
  (forall w w' : Coefficient.CoefficientObject,
     Coefficient__eq__ w (Argument.ACoefficient w') = true
     <-> Coefficient._element w = Coefficient._element w'
         /\ Coefficient._count w = Coefficient._count w')
  /\ (forall w, Coefficient__eq__ w (Argument.ACoefficient w) = true)
  /\ (forall w w',
        Coefficient__eq__ w (Argument.ACoefficient w')
        = Coefficient__eq__ w' (Argument.ACoefficient w))
  /\ (forall w1 w2 w3,
        Coefficient__eq__ w1 (Argument.ACoefficient w2) = true ->
        Coefficient__eq__ w2 (Argument.ACoefficient w3) = true ->
        Coefficient__eq__ w1 (Argument.ACoefficient w3) = true)
  /\ (forall (cell : Domain) (c : Z) (g g' : Globals),
        Coefficient__eq__ (Coefficient.Constant cell (Some c) g).1
          (Argument.ACoefficient
             (Coefficient.Coefficient (FiniteElement "DG" cell 0) (Some c) g').1)
        = true)
  /\ (forall (w : Coefficient.CoefficientObject) (a : Argument.ArgumentObject),
        Coefficient__eq__ w (Argument.AnArgument a) = false
        /\ Argument.Argument__eq__ a (Argument.ACoefficient w) = false).
Proof.
  assert (Heq : forall w w' : Coefficient.CoefficientObject,
             Coefficient__eq__ w (Argument.ACoefficient w') = true
             <-> Coefficient._element w = Coefficient._element w'
                 /\ Coefficient._count w = Coefficient._count w').
  { intros w w'. unfold Coefficient__eq__.
    rewrite andb_true_iff, !bool_decide_eq_true. reflexivity. }
  split; [exact Heq |]. split; [intros w; apply Heq; auto |].
  split.
  { intros w w'. apply eq_true_iff_eq. rewrite !Heq.
    split; intros [-> ->]; auto. }
  split.
  { intros w1 w2 w3. rewrite !Heq. intros [-> ->] [-> ->]. auto. }
  split.
  { intros cell c g g'. apply Heq. split; reflexivity. }
  intros w a. split; reflexivity.
Qed.


End Reconstruction.

Section ReconstructionWitnesses.
Import FiniteElement Common FormArguments.


End ReconstructionWitnesses.
